(** * workers-site/index.js: a static-asset handler for an edge worker

    A shallow embedding of [src/workers-site/index.js] and the properties
    of its request handler.

    The file has three layers:
    - the pieces of the JavaScript runtime the handler calls: strings,
      [RegExp.prototype.test], the [URL] class on serialised http(s)
      URLs, [Headers], [Request], [Response];
    - the handler itself: [addCustomHeaders], [handleEvent] and the
      [fetch] listener, written in a small state and exception monad
      over the asset store;
    - the theorems. *)

From Stdlib Require Import String Ascii List ZArith Bool Lia.
Import ListNotations.

#[local] Open Scope string_scope.
#[local] Open Scope bool_scope.

(** ** Strings *)

(** JavaScript strings are modelled by [string]; every string the
    handler inspects is a serialised URL or a header name, both ASCII. *)

Module Str.

(** [s.endsWith(suffix)] *)
Fixpoint endsWith (s suffix : string) : bool :=
  if String.eqb s suffix then true
  else match s with
       | EmptyString => false
       | String _ s' => endsWith s' suffix
       end.

(** ASCII lower-casing of one character, then of a string (header names
    are byte-lowercased by [Headers]). *)
Definition lower_ascii (c : ascii) : ascii :=
  let n := nat_of_ascii c in
  if (65 <=? n)%nat && (n <=? 90)%nat then ascii_of_nat (n + 32) else c.

Fixpoint toLowerCase (s : string) : string :=
  match s with
  | EmptyString => EmptyString
  | String c s' => String (lower_ascii c) (toLowerCase s')
  end.

(** The longest prefix of [s] without a character satisfying [stop], and
    what is left of [s] from that character on. *)
Fixpoint take_until (stop : ascii -> bool) (s : string) : string :=
  match s with
  | EmptyString => EmptyString
  | String c s' => if stop c then EmptyString else String c (take_until stop s')
  end.

Fixpoint drop_until (stop : ascii -> bool) (s : string) : string :=
  match s with
  | EmptyString => EmptyString
  | String c s' => if stop c then s else drop_until stop s'
  end.

(** [s.split(sep)] for a one-character separator. *)
Fixpoint split (sep : ascii) (s : string) : list string :=
  match s with
  | EmptyString => [EmptyString]
  | String c s' =>
      if Ascii.eqb c sep then EmptyString :: split sep s'
      else match split sep s' with
           | [] => [String c EmptyString]
           | seg :: segs => String c seg :: segs
           end
  end.

(** Every character of [s] satisfies [p]. *)
Fixpoint forallb (p : ascii -> bool) (s : string) : bool :=
  match s with
  | EmptyString => true
  | String c s' => p c && forallb p s'
  end.

End Str.

(** ** Regular expressions

    The fragment of JavaScript regular expressions the handler uses:
    literals, the class [\S], sequence, alternation and [+].  [test] is
    [RegExp.prototype.test] for a pattern without flags: it answers
    whether some substring of the subject matches. *)

Module RegExp.

Inductive regex : Type :=
| Void                      (* matches nothing *)
| Eps                       (* the empty string *)
| Lit (c : ascii)           (* one literal character *)
| NonSpace                  (* \S *)
| Seq (r1 r2 : regex)
| Alt (r1 r2 : regex)
| Star (r : regex).

(** [r+] *)
Definition Plus (r : regex) : regex := Seq r (Star r).

(** A literal string. *)
Fixpoint Str (s : string) : regex :=
  match s with
  | EmptyString => Eps
  | String c s' => Seq (Lit c) (Str s')
  end.

(** The JavaScript class [\s] on code units below 256: tab, line feed,
    vertical tab, form feed, carriage return, space and no-break space. *)
Definition is_space (c : ascii) : bool :=
  let n := nat_of_ascii c in
  ((9 <=? n)%nat && (n <=? 13)%nat) || (n =? 32)%nat || (n =? 160)%nat.

Definition non_space (c : ascii) : bool := negb (is_space c).

(** The language of a pattern. *)
Inductive matches : regex -> string -> Prop :=
| MEps : matches Eps EmptyString
| MLit c : matches (Lit c) (String c EmptyString)
| MNonSpace c : non_space c = true -> matches NonSpace (String c EmptyString)
| MSeq r1 r2 s1 s2 : matches r1 s1 -> matches r2 s2 -> matches (Seq r1 r2) (s1 ++ s2)
| MAltL r1 r2 s : matches r1 s -> matches (Alt r1 r2) s
| MAltR r1 r2 s : matches r2 s -> matches (Alt r1 r2) s
| MStar0 r : matches (Star r) EmptyString
| MStarS r s1 s2 : matches r s1 -> matches (Star r) s2 -> matches (Star r) (s1 ++ s2).

(** The matcher, by derivatives. *)
Fixpoint nullable (r : regex) : bool :=
  match r with
  | Void => false
  | Eps => true
  | Lit _ => false
  | NonSpace => false
  | Seq r1 r2 => nullable r1 && nullable r2
  | Alt r1 r2 => nullable r1 || nullable r2
  | Star _ => true
  end.

Fixpoint deriv (c : ascii) (r : regex) : regex :=
  match r with
  | Void => Void
  | Eps => Void
  | Lit d => if Ascii.eqb c d then Eps else Void
  | NonSpace => if non_space c then Eps else Void
  | Seq r1 r2 =>
      if nullable r1 then Alt (Seq (deriv c r1) r2) (deriv c r2)
      else Seq (deriv c r1) r2
  | Alt r1 r2 => Alt (deriv c r1) (deriv c r2)
  | Star r1 => Seq (deriv c r1) (Star r1)
  end.

(** Some prefix of [s] matches [r]. *)
Fixpoint match_prefix (r : regex) (s : string) : bool :=
  nullable r ||
  match s with
  | EmptyString => false
  | String c s' => match_prefix (deriv c r) s'
  end.

(** [r.test(s)]: a match starts at some position of [s]. *)
Fixpoint test (r : regex) (s : string) : bool :=
  match_prefix r s ||
  match s with
  | EmptyString => false
  | String _ s' => test r s'
  end.

End RegExp.

(** ** The [URL] class

    [event.request.url] is a serialised absolute URL with an http or
    https scheme, of the shape
    [scheme://[userinfo@]host[:port]/path[?query][#fragment]].
    [URL.parse] is [new URL(s)] on such a string: the serialisation is
    kept as [href] and cut into the components the handler reads. *)

Module URL.

Record t : Type := mk {
  href : string;
  origin : string;
  pathname : string;
  search : string;
  hash : string
}.

(** [s] without the prefix [p], when it has it. *)
Fixpoint strip_prefix (p s : string) : option string :=
  match p, s with
  | EmptyString, _ => Some s
  | String a p', String b s' => if Ascii.eqb a b then strip_prefix p' s' else None
  | String _ _, EmptyString => None
  end.

(** [s] cut at the first occurrence of [sep]. *)
Fixpoint split_at (sep s : string) : option (string * string) :=
  match strip_prefix sep s with
  | Some rest => Some (EmptyString, rest)
  | None =>
      match s with
      | EmptyString => None
      | String c s' =>
          match split_at sep s' with
          | Some (before, rest) => Some (String c before, rest)
          | None => None
          end
      end
  end.

Definition is_hash (c : ascii) : bool := Ascii.eqb c "#".
Definition is_path_end (c : ascii) : bool := Ascii.eqb c "?" || Ascii.eqb c "#".
Definition is_authority_end (c : ascii) : bool := Ascii.eqb c "/" || is_path_end c.

(** What follows the last ["@"] of an authority, if it has one. *)
Fixpoint after_last_at (a : string) : option string :=
  match a with
  | EmptyString => None
  | String c a' =>
      match after_last_at a' with
      | Some h => Some h
      | None => if Ascii.eqb c "@" then Some a' else None
      end
  end.

Definition strip_userinfo (authority : string) : string :=
  match after_last_at authority with
  | Some host => host
  | None => authority
  end.

Definition parse (s : string) : t :=
  match split_at "://" s with
  | Some (scheme, rest) =>
      let authority := Str.take_until is_authority_end rest in
      let after := Str.drop_until is_authority_end rest in
      let path := Str.take_until is_path_end after in
      let after_path := Str.drop_until is_path_end after in
      let query := Str.take_until is_hash after_path in
      let fragment := Str.drop_until is_hash after_path in
      {| href := s;
         origin := scheme ++ "://" ++ strip_userinfo authority;
         pathname := if String.eqb path "" then "/" else path;
         search := if String.eqb query "?" then "" else query;
         hash := if String.eqb fragment "#" then "" else fragment |}
  | None =>
      (* not a hierarchical URL: an opaque origin *)
      {| href := s; origin := "null"; pathname := s; search := ""; hash := "" |}
  end.

(** [String(url)], the conversion [regex.test] applies to its argument. *)
Definition toString (u : t) : string := href u.

(** The segments of a path: the pieces between its slashes. *)
Definition segments (path : string) : list string :=
  match path with
  | String "/" p => Str.split "/" p
  | _ => Str.split "/" path
  end.

End URL.

(** ** [Headers]

    A header list: (name, value) entries in insertion order, names
    byte-lowercased.  [get] combines the values of one name with
    [", "], as the Fetch standard says. *)

Module Headers.

Definition t : Type := list (string * string).

Definition empty : t := [].

Definition append (name value : string) (h : t) : t :=
  (h ++ [(Str.toLowerCase name, value)])%list.

Definition values (name : string) (h : t) : list string :=
  map snd (filter (fun e => String.eqb (fst e) (Str.toLowerCase name)) h).

Definition has (name : string) (h : t) : bool :=
  existsb (fun e => String.eqb (fst e) (Str.toLowerCase name)) h.

Definition get (name : string) (h : t) : option string :=
  match values name h with
  | [] => None
  | vs => Some (String.concat ", " vs)
  end.

End Headers.

(** ** [Request], [Response], [FetchEvent] *)

Record Request : Type := {
  url : string;
  method : string;
  requestHeaders : Headers.t
}.

(** [new Request(url, init)] with a request as [init]: the method and the
    headers of [init], the new URL. *)
Definition new_Request (u : string) (init : Request) : Request :=
  {| url := u; method := method init; requestHeaders := requestHeaders init |}.

(** A response body: [None] is the null body, [Some b] a stream that
    yields the bytes [b]. *)
Definition Body : Type := option string.

Record Response : Type := {
  status : Z;
  headers : Headers.t;
  body : Body
}.

(** The second argument of [new Response]. *)
Record ResponseInit : Type := {
  init_status : option Z;
  init_headers : option Headers.t
}.

(** The first argument of [new Response]: a string, or the [body] of
    another response (a stream or [null]). *)
Inductive BodyInit : Type :=
| BodyText (s : string)
| BodyStream (b : Body).

(** [new Response(body, init)]: status 200 unless given, a copy of the
    given headers, and for a string body without a [Content-Type] the
    type [text/plain;charset=UTF-8]. *)
Definition new_Response (b : BodyInit) (init : ResponseInit) : Response :=
  let st := match init_status init with Some n => n | None => 200%Z end in
  let hs := match init_headers init with Some h => h | None => Headers.empty end in
  match b with
  | BodyText s =>
      {| status := st;
         headers := if Headers.has "Content-Type" hs then hs
                    else Headers.append "Content-Type" "text/plain;charset=UTF-8" hs;
         body := Some s |}
  | BodyStream strm => {| status := st; headers := hs; body := strm |}
  end.

Record FetchEvent : Type := {
  request : Request
}.

(** A thrown value [e], as far as the handler looks at it:
    [e.message] and [e.toString()]. *)
Record JsError : Type := {
  message : option string;
  toString : string
}.

(** [e.message || e.toString()]: the message unless it is missing or
    the empty string. *)
Definition message_or_toString (e : JsError) : string :=
  match message e with
  | Some m => if String.eqb m "" then toString e else m
  | None => toString e
  end.

(** The options of [getAssetFromKV]. *)
Record CacheControl : Type := {
  bypassCache : bool
}.

Module Options.
Record t : Type := mk {
  mapRequestToAsset : Request -> Request;
  cacheControl : option CacheControl
}.
End Options.

(** ** The handler's monad

    [getAssetFromKV] reads and writes the asset store and may throw, so
    the handler runs in a state and exception monad.  The state also
    records, in call order, the arguments of every [getAssetFromKV] and
    [respondWith] call, so that what the handler asked of its
    environment can be stated. *)

Inductive result (A : Type) : Type :=
| Ok (a : A)
| Throw (e : JsError).

Arguments Ok {A} a.
Arguments Throw {A} e.

Section Monad.

Variable W : Type.

Definition M (A : Type) : Type := W -> result A * W.

Definition ret {A : Type} (a : A) : M A := fun w => (Ok a, w).

Definition throw {A : Type} (e : JsError) : M A := fun w => (Throw e, w).

Definition bind {A B : Type} (m : M A) (k : A -> M B) : M B :=
  fun w =>
    match m w with
    | (Ok a, w') => k a w'
    | (Throw e, w') => (Throw e, w')
    end.

(** [try { m } catch (e) { h e }] *)
Definition try_catch {A : Type} (m : M A) (h : JsError -> M A) : M A :=
  fun w =>
    match m w with
    | (Ok a, w') => (Ok a, w')
    | (Throw e, w') => h e w'
    end.

(** Calling an [async] function: the body runs, and its outcome is the
    promise the call returns; the call itself does not throw. *)
Definition async {A : Type} (m : M A) : M (result A) :=
  fun w => let (r, w') := m w in (Ok r, w').

End Monad.

Arguments ret {W A} a.
Arguments throw {W A} e.
Arguments bind {W A B} m k.
Arguments try_catch {W A} m h.
Arguments async {W A} m.

Declare Scope js_scope.
Delimit Scope js_scope with js.
Notation "x <- m ;; k" := (bind m (fun x => k))
  (at level 61, m at next level, right associativity) : js_scope.
Notation "'try' m 'catch' h" := (try_catch m h)
  (at level 62, m at level 61, h at level 61) : js_scope.

(** ** workers-site/index.js *)

Definition DEBUG : bool := false.

(** The pattern of [addCustomHeaders]: [/\S+\/(js|css|img)\/\S+/]. *)
Definition regex : RegExp.regex :=
  RegExp.Seq (RegExp.Plus RegExp.NonSpace)
    (RegExp.Seq (RegExp.Lit "/")
       (RegExp.Seq
          (RegExp.Alt (RegExp.Str "js") (RegExp.Alt (RegExp.Str "css") (RegExp.Str "img")))
          (RegExp.Seq (RegExp.Lit "/") (RegExp.Plus RegExp.NonSpace)))).

Definition with_headers (r : Response) (h : Headers.t) : Response :=
  {| status := status r; headers := h; body := body r |}.

(** [addCustomHeaders] appends to the [Headers] object of [response] in
    place; here it returns the response with the longer header list. *)
Definition addCustomHeaders (requestURL : URL.t) (response : Response) : Response :=
  let headers0 := headers response in
  (* Set caching headers *)
  let headers1 :=
    if RegExp.test regex (URL.toString requestURL)
    then Headers.append "Cache-Control" "public, max-age=31536000, immutable" headers0
    else Headers.append "Cache-Control" "must-revalidate" headers0 in
  (* Security headers *)
  let headers2 := Headers.append "X-Frame-Options" "DENY" headers1 in
  let headers3 := Headers.append "X-Content-Type-Options" "nosniff" headers2 in
  let headers4 := Headers.append "X-XSS-Protection" "1; mode=block" headers3 in
  let headers5 := Headers.append "Referrer-Policy" "no-referrer" headers4 in
  with_headers response headers5.

Section Worker.

(** The asset store client, [@cloudflare/kv-asset-handler]: the state
    [KV] it works on (the namespace and the edge cache), its default
    mapper and its lookup.  A lookup returns a response object of its
    own at every call (the library builds one with [new Response]), so a
    response is a value here, and the appends of [addCustomHeaders] to
    it are seen by nobody but the handler. *)
Variable KV : Type.
Variable mapRequestToAsset : Request -> Request.
Variable kvAssetHandler : FetchEvent -> Options.t -> KV -> result Response * KV.

(** Whether the runtime keeps the fields of a [Response] as own
    enumerable properties of the object (so that an object spread copies
    them) or as accessors of its prototype (so that it copies nothing). *)
Variable ownFields : bool.

(** What [event.respondWith] throws when the event has been responded
    to already. *)
Variable InvalidStateError : JsError.

Record World : Type := {
  kv : KV;
  fetches : list (FetchEvent * Options.t);   (* getAssetFromKV calls *)
  respondWithEntered : bool;                   (* the event's flag *)
  responses : list (result Response)           (* respondWith arguments *)
}.

#[local] Open Scope js_scope.

Definition getAssetFromKV (event : FetchEvent) (options : Options.t) : M World Response :=
  fun w =>
    let (r, kv') := kvAssetHandler event options (kv w) in
    (r, {| kv := kv';
           fetches := (fetches w ++ [(event, options)])%list;
           respondWithEntered := respondWithEntered w;
           responses := responses w |}).

(** [event.respondWith(p)]; [p] is a promise, given by what it settles to. *)
Definition respondWith (p : result Response) : M World unit :=
  fun w =>
    let w' := {| kv := kv w;
                 fetches := fetches w;
                 respondWithEntered := true;
                 responses := (responses w ++ [p])%list |} in
    if respondWithEntered w then (Throw InvalidStateError, w') else (Ok tt, w').

(** [{ ...response, status: st }] *)
Definition spread_with_status (response : Response) (st : Z) : ResponseInit :=
  {| init_status := Some st;
     init_headers := if ownFields then Some (headers response) else None |}.

(** [options.mapRequestToAsset] of the primary lookup. *)
Definition assetMapper (req : Request) : Request :=
  (* First let's apply the default handler *)
  let req := mapRequestToAsset req in
  if Str.endsWith (url req) "/index.html"
  then new_Request (URL.origin (URL.parse (url req)) ++ "/index.html") req
  else req.

(** [mapRequestToAsset] of the lookup of the not-found page. *)
Definition notFoundMapper (req : Request) : Request :=
  new_Request (URL.origin (URL.parse (url req)) ++ "/404.html") req.

Definition handleEventWith (debug : bool) (event : FetchEvent) : M World Response :=
  let requestURL := URL.parse (url (request event)) in
  let options := Options.mk assetMapper None in
  try (
    let options :=
      if debug
      then Options.mk (Options.mapRequestToAsset options) (Some {| bypassCache := true |})
      else options in
    response <- getAssetFromKV event options ;;
    ret (addCustomHeaders requestURL response)
  ) catch (fun e =>
    (* if an error is thrown try to serve the asset at 404.html *)
    served <-
      (if negb debug
       then
         try (
           notFoundResponse <- getAssetFromKV event (Options.mk notFoundMapper None) ;;
           ret (Some (new_Response (BodyStream (body notFoundResponse))
                                   (spread_with_status notFoundResponse 404)))
         ) catch (fun _ => ret None)
       else ret None) ;;
    match served with
    | Some notFound => ret notFound
    | None =>
        ret (new_Response (BodyText (message_or_toString e))
                          {| init_status := Some 500%Z; init_headers := None |})
    end).

(** The [fetch] listener. *)
Definition fetchListenerWith (debug : bool) (event : FetchEvent) : M World unit :=
  try (
    p <- async (handleEventWith debug event) ;;
    respondWith p
  ) catch (fun e =>
    if debug
    then respondWith (Ok (new_Response (BodyText (message_or_toString e))
                                       {| init_status := Some 500%Z; init_headers := None |}))
    else respondWith (Ok (new_Response (BodyText "Internal Error")
                                       {| init_status := Some 500%Z; init_headers := None |}))).

(** The program as shipped: [DEBUG] is the constant of the source. *)
Definition handleEvent : FetchEvent -> M World Response := handleEventWith DEBUG.

Definition fetchListener : FetchEvent -> M World unit := fetchListenerWith DEBUG.

(** A world in which the event is being dispatched and nothing has been
    asked of the store yet. *)
Definition start (k : KV) : World :=
  {| kv := k; fetches := []; respondWithEntered := false; responses := [] |}.

End Worker.

Arguments kv {KV} w.
Arguments fetches {KV} w.
Arguments respondWithEntered {KV} w.
Arguments responses {KV} w.
Arguments start {KV} k.
Arguments getAssetFromKV {KV} kvAssetHandler event options _.
Arguments respondWith {KV} InvalidStateError p _.
Arguments handleEventWith {KV} mapRequestToAsset kvAssetHandler ownFields debug event _.
Arguments handleEvent {KV} mapRequestToAsset kvAssetHandler ownFields event _.
Arguments fetchListenerWith {KV} mapRequestToAsset kvAssetHandler ownFields InvalidStateError debug event _.
Arguments fetchListener {KV} mapRequestToAsset kvAssetHandler ownFields InvalidStateError event _.

(** The two header values of the caching branch. *)
Definition immutable : string := "public, max-age=31536000, immutable".
Definition revalidate : string := "must-revalidate".

(** The security headers of [addCustomHeaders], as written there. *)
Definition securityHeaders : list (string * string) :=
  [ ("X-Frame-Options", "DENY");
    ("X-Content-Type-Options", "nosniff");
    ("X-XSS-Protection", "1; mode=block");
    ("Referrer-Policy", "no-referrer") ].

(** The names of the headers [addCustomHeaders] writes, as [Headers]
    keeps them. *)
Definition customHeaderNames : list string :=
  [ "cache-control"; "x-frame-options"; "x-content-type-options";
    "x-xss-protection"; "referrer-policy" ].

(** The [Cache-Control] value [addCustomHeaders] picks for a URL. *)
Definition cacheControlFor (requestURL : URL.t) : string :=
  if RegExp.test regex (URL.toString requestURL) then immutable else revalidate.

(** The response of the [catch] blocks: a string body and status 500. *)
Definition errorResponse (text : string) : Response :=
  new_Response (BodyText text) {| init_status := Some 500%Z; init_headers := None |}.

(** ** Vocabulary of the properties *)

(** The options of the two lookups, as [handleEvent] builds them. *)
Definition primaryOptions (mapRequestToAsset : Request -> Request) (debug : bool) : Options.t :=
  if debug
  then Options.mk (assetMapper mapRequestToAsset) (Some {| bypassCache := true |})
  else Options.mk (assetMapper mapRequestToAsset) None.

Definition notFoundOptions : Options.t := Options.mk notFoundMapper None.

(** The response made from the not-found page. *)
Definition notFoundPage (ownFields : bool) (notFoundResponse : Response) : Response :=
  new_Response (BodyStream (body notFoundResponse))
               (spread_with_status ownFields notFoundResponse 404).

(** The world [w] after the store went to state [k] through the lookups
    [calls]. *)
Definition fetched {KV : Type} (w : World KV) (k : KV)
           (calls : list (FetchEvent * Options.t)) : World KV :=
  {| kv := k;
     fetches := (fetches w ++ calls)%list;
     respondWithEntered := respondWithEntered w;
     responses := responses w |}.


(** A header list carries [name] with the value [value]. *)
Definition carries (h : Headers.t) (name value : string) : Prop :=
  In value (Headers.values name h).

(** One of the three asset directories. *)
Definition is_asset_dir (seg : string) : bool :=
  String.eqb seg "js" || String.eqb seg "css" || String.eqb seg "img".

(** The path has a segment equal to [js], [css] or [img]. *)
Definition has_asset_segment (path : string) : bool :=
  existsb is_asset_dir (URL.segments path).

(** [t] occurs in [s]. *)
Definition occurs (t s : string) : Prop :=
  exists pre post, s = pre ++ t ++ post.

(** The string has an asset directory between two slashes, with a
    non-blank character just before the first slash and one just after
    the second. *)
Definition asset_dir_inside (s : string) : Prop :=
  exists pre c dir d post,
    s = pre ++ String c ("/" ++ dir ++ "/" ++ String d post) /\
    RegExp.non_space c = true /\ RegExp.non_space d = true /\
    is_asset_dir dir = true.

(** ** A small asset store, for running the handler

    A table from asset paths to contents, a default mapper that sends
    directory-like paths to their [index.html], and a lookup that throws
    when the mapped path is not in the table. *)

Module Demo.

Definition KV : Type := list (string * string).

Definition has_dot (s : string) : bool :=
  negb (Str.forallb (fun c => negb (Ascii.eqb c ".")) s).

Definition mapRequestToAsset (req : Request) : Request :=
  let parsedUrl := URL.parse (url req) in
  let pathname := URL.pathname parsedUrl in
  let pathname :=
    if Str.endsWith pathname "/" then pathname ++ "index.html"
    else if has_dot (last (URL.segments pathname) "") then pathname
    else pathname ++ "/index.html" in
  new_Request (URL.origin parsedUrl ++ pathname ++ URL.search parsedUrl ++ URL.hash parsedUrl) req.

Definition NotFoundError (path : string) : JsError :=
  {| message := Some ("could not find " ++ path ++ " in your content namespace");
     toString := "NotFoundError: could not find " ++ path ++ " in your content namespace" |}.

Definition contentType (path : string) : string :=
  if Str.endsWith path ".html" then "text/html"
  else if Str.endsWith path ".js" then "application/javascript"
  else "application/octet-stream".

Definition kvAssetHandler (event : FetchEvent) (options : Options.t) (kv : KV)
  : result Response * KV :=
  let req := Options.mapRequestToAsset options (request event) in
  let path := URL.pathname (URL.parse (url req)) in
  match find (fun entry => String.eqb (fst entry) path) kv with
  | Some (_, content) =>
      (Ok {| status := 200;
             headers := Headers.append "Content-Type" (contentType path) Headers.empty;
             body := Some content |}, kv)
  | None => (Throw (NotFoundError path), kv)
  end.

Definition InvalidStateError : JsError :=
  {| message := Some "respondWith() has already been called";
     toString := "InvalidStateError: respondWith() has already been called" |}.

(** A site with a not-found page, and one without. *)
Definition site : KV :=
  [ ("/index.html", "<h1>home</h1>");
    ("/404.html", "<h1>not found</h1>");
    ("/js/app.3f2a.js", "console.log(1)") ].

Definition bareSite : KV :=
  [ ("/index.html", "<h1>home</h1>") ].

Definition GET (u : string) : FetchEvent :=
  {| request := {| url := u; method := "GET"; requestHeaders := Headers.empty |} |}.

(** The handler and the listener over this store. *)
Definition handle (ownFields debug : bool) (u : string) (k : KV) : result Response :=
  fst (handleEventWith mapRequestToAsset kvAssetHandler ownFields debug (GET u) (start k)).

Definition listen (ownFields debug : bool) (u : string) (w : World KV) : World KV :=
  snd (fetchListenerWith mapRequestToAsset kvAssetHandler ownFields InvalidStateError debug (GET u) w).

End Demo.

(** * Properties *)

(** ** The runtime model on examples *)

Example parse_full_url :
  URL.parse "https://user:pw@example.com:8080/a/b/?x=1#frag" =
  {| URL.href := "https://user:pw@example.com:8080/a/b/?x=1#frag";
     URL.origin := "https://example.com:8080";
     URL.pathname := "/a/b/";
     URL.search := "?x=1";
     URL.hash := "#frag" |}.
Proof. reflexivity. Qed.

Example parse_bare_host :
  URL.pathname (URL.parse "https://example.com") = "/" /\
  URL.origin (URL.parse "https://example.com?q") = "https://example.com".
Proof. split; reflexivity. Qed.

Example segments_of_path :
  URL.segments "/docs/js/" = ["docs"; "js"; ""] /\ URL.segments "/" = [""].
Proof. split; reflexivity. Qed.

Example regex_on_urls :
  RegExp.test regex "https://example.com/js/app.3f2a.js" = true /\
  RegExp.test regex "https://example.com/assets/img/logo.png" = true /\
  RegExp.test regex "https://example.com/js/" = false /\
  RegExp.test regex "https://example.com/json/data" = false /\
  RegExp.test regex "/css/site.css" = false /\
  RegExp.test regex "x/css/ site.css" = false.
Proof. repeat split; reflexivity. Qed.

Example endsWith_on_urls :
  Str.endsWith "https://example.com/docs/index.html" "/index.html" = true /\
  Str.endsWith "https://example.com/index.htm" "/index.html" = false /\
  Str.endsWith "index.html" "/index.html" = false /\
  Str.endsWith "abc" "" = true.
Proof. repeat split; reflexivity. Qed.

Example headers_append_get :
  let h := Headers.append "Cache-Control" "must-revalidate"
             (Headers.append "cache-control" "max-age=60" Headers.empty) in
  Headers.get "CACHE-CONTROL" h = Some "max-age=60, must-revalidate" /\
  Headers.get "ETag" h = None.
Proof. split; reflexivity. Qed.

Example message_or_toString_cases :
  message_or_toString {| message := Some "boom"; toString := "Error: boom" |} = "boom" /\
  message_or_toString {| message := Some ""; toString := "Error" |} = "Error" /\
  message_or_toString {| message := None; toString := "[object Object]" |}
  = "[object Object]".
Proof. repeat split; reflexivity. Qed.

Example errorResponse_fields :
  errorResponse "Internal Error" =
  {| status := 500;
     headers := [("content-type", "text/plain;charset=UTF-8")];
     body := Some "Internal Error" |}.
Proof. reflexivity. Qed.

Example demo_mapper :
  url (Demo.mapRequestToAsset (request (Demo.GET "https://example.com/docs/guide")))
  = "https://example.com/docs/guide/index.html" /\
  url (Demo.mapRequestToAsset (request (Demo.GET "https://example.com/?next=/js/x")))
  = "https://example.com/index.html?next=/js/x".
Proof. split; reflexivity. Qed.

(** ** Strings *)

Lemma append_nil_r (s : string) : s ++ "" = s.
Proof. induction s as [|c s IH]; simpl; [reflexivity | now rewrite IH]. Qed.

Lemma append_assoc (s t u : string) : (s ++ t) ++ u = s ++ t ++ u.
Proof. induction s as [|c s IH]; simpl; [reflexivity | now rewrite IH]. Qed.

(** Appends re-associated to the right. *)
Ltac norm_append := repeat (progress (rewrite ?append_assoc; cbn [append])).

Lemma append_eq_nil (s t : string) : s ++ t = "" -> s = "" /\ t = "".
Proof. destruct s; simpl; [auto | discriminate]. Qed.

(** A string that is not empty ends in a character. *)
Lemma string_snoc (s : string) :
  s <> "" -> exists s' c, s = s' ++ String c "".
Proof.
  induction s as [|c s IH]; intros H; [congruence|].
  destruct s as [|d s].
  - exists "", c. reflexivity.
  - destruct IH as (s' & e & E); [discriminate|].
    exists (String c s'), e. simpl. now rewrite <- E.
Qed.

Lemma forallb_append (p : ascii -> bool) (s t : string) :
  Str.forallb p (s ++ t) = Str.forallb p s && Str.forallb p t.
Proof.
  induction s as [|c s IH]; simpl; [reflexivity|].
  rewrite IH. now rewrite andb_assoc.
Qed.

Lemma endsWith_unfold (s suffix : string) :
  Str.endsWith s suffix =
  String.eqb s suffix ||
  match s with
  | EmptyString => false
  | String _ s' => Str.endsWith s' suffix
  end.
Proof. destruct s; reflexivity. Qed.

Lemma endsWith_spec (s suffix : string) :
  Str.endsWith s suffix = true <-> exists pre, s = pre ++ suffix.
Proof.
  induction s as [|c s IH]; rewrite endsWith_unfold, orb_true_iff.
  - split.
    + intros [E | E]; [|discriminate]. apply String.eqb_eq in E. now exists "".
    + intros (pre & E). left. apply String.eqb_eq.
      symmetry in E. apply append_eq_nil in E. destruct E; congruence.
  - rewrite IH. split.
    + intros [E | (pre & E)].
      * apply String.eqb_eq in E. now exists "".
      * exists (String c pre). simpl. now rewrite E.
    + intros (pre & E). destruct pre as [|d pre]; simpl in E.
      * left. now apply String.eqb_eq.
      * injection E as _ E. right. now exists pre.
Qed.

(** ** The matcher decides the language *)

Module RegExpFacts.
Import RegExp.

Lemma matches_nil_nullable (r : regex) (s : string) :
  matches r s -> s = "" -> nullable r = true.
Proof.
  induction 1; intros E; simpl; try reflexivity; try discriminate.
  - apply append_eq_nil in E. destruct E.
    rewrite IHmatches1, IHmatches2; auto.
  - rewrite IHmatches; auto.
  - rewrite IHmatches; auto using orb_true_r.
Qed.

Lemma nullable_matches_nil (r : regex) : nullable r = true -> matches r "".
Proof.
  induction r; simpl; intros H; try discriminate.
  - constructor.
  - apply andb_true_iff in H. destruct H.
    change "" with ("" ++ ""). constructor; auto.
  - apply orb_true_iff in H. destruct H; [apply MAltL | apply MAltR]; auto.
  - constructor.
Qed.

Lemma nullable_spec (r : regex) : nullable r = true <-> matches r "".
Proof.
  split; [apply nullable_matches_nil | intros H; now apply matches_nil_nullable with ""].
Qed.

(** A non-empty match of [r*] starts with a non-empty match of [r]. *)
Lemma matches_Star_cons (r : regex) (t : string) :
  matches (Star r) t ->
  forall c s, t = String c s ->
  exists s1 s2, s = s1 ++ s2 /\ matches r (String c s1) /\ matches (Star r) s2.
Proof.
  intros H. remember (Star r) as q eqn:Q.
  induction H; try discriminate; injection Q as ->; intros c s E.
  destruct s1 as [|d s1]; simpl in E.
  - now apply IHmatches2.
  - injection E as -> <-. now exists s1, s2.
Qed.

(** Inversion of [matches], one lemma per constructor of [regex]. *)
Lemma inv_Void (s : string) : matches Void s -> False.
Proof. inversion 1. Qed.

Lemma inv_Eps (s : string) : matches Eps s -> s = "".
Proof. now inversion 1. Qed.

Lemma inv_Lit (c : ascii) (s : string) : matches (Lit c) s -> s = String c "".
Proof. now inversion 1. Qed.

Lemma inv_NonSpace (s : string) :
  matches NonSpace s -> exists c, s = String c "" /\ non_space c = true.
Proof. inversion 1; subst; eauto. Qed.

Lemma inv_Seq (r1 r2 : regex) (s : string) :
  matches (Seq r1 r2) s ->
  exists s1 s2, s = s1 ++ s2 /\ matches r1 s1 /\ matches r2 s2.
Proof. inversion 1; subst; eauto. Qed.

Lemma inv_Alt (r1 r2 : regex) (s : string) :
  matches (Alt r1 r2) s -> matches r1 s \/ matches r2 s.
Proof. inversion 1; subst; auto. Qed.

Lemma matches_cons_Seq (r1 r2 : regex) (c : ascii) (s1 s2 : string) :
  matches r1 (String c s1) -> matches r2 s2 -> matches (Seq r1 r2) (String c (s1 ++ s2)).
Proof.
  intros H1 H2. change (String c (s1 ++ s2)) with (String c s1 ++ s2).
  now constructor.
Qed.

Lemma deriv_sound (r : regex) :
  forall c s, matches (deriv c r) s -> matches r (String c s).
Proof.
  induction r as [| |d| |r1 IH1 r2 IH2|r1 IH1 r2 IH2|r1 IH1]; simpl; intros c s H.
  - now apply inv_Void in H.
  - now apply inv_Void in H.
  - destruct (Ascii.eqb_spec c d) as [->|_]; [|now apply inv_Void in H].
    apply inv_Eps in H. subst. constructor.
  - destruct (non_space c) eqn:E; [|now apply inv_Void in H].
    apply inv_Eps in H. subst. now constructor.
  - assert (L : matches (Seq (deriv c r1) r2) s -> matches (Seq r1 r2) (String c s)).
    { intros H'. apply inv_Seq in H'. destruct H' as (s1 & s2 & -> & H1 & H2).
      apply matches_cons_Seq; auto. }
    destruct (nullable r1) eqn:N; [|auto].
    apply inv_Alt in H. destruct H as [H | H]; [auto|].
    change (String c s) with ("" ++ String c s).
    constructor; auto using nullable_matches_nil.
  - apply inv_Alt in H. destruct H; [apply MAltL | apply MAltR]; auto.
  - apply inv_Seq in H. destruct H as (s1 & s2 & -> & H1 & H2).
    change (String c (s1 ++ s2)) with (String c s1 ++ s2).
    constructor; auto.
Qed.

Lemma deriv_complete (r : regex) :
  forall c s, matches r (String c s) -> matches (deriv c r) s.
Proof.
  induction r as [| |d| |r1 IH1 r2 IH2|r1 IH1 r2 IH2|r1 IH1]; simpl; intros c s H.
  - now apply inv_Void in H.
  - apply inv_Eps in H. discriminate.
  - apply inv_Lit in H. injection H as -> ->. rewrite Ascii.eqb_refl. constructor.
  - apply inv_NonSpace in H. destruct H as (e & E & N).
    injection E as -> ->. rewrite N. constructor.
  - apply inv_Seq in H. destruct H as (s1 & s2 & E & H1 & H2).
    destruct s1 as [|e s1]; simpl in E.
    + subst s2. rewrite (matches_nil_nullable r1 "" H1 eq_refl).
      apply MAltR. auto.
    + injection E as -> ->.
      destruct (nullable r1); [apply MAltL|]; constructor; auto.
  - apply inv_Alt in H. destruct H; [apply MAltL | apply MAltR]; auto.
  - destruct (matches_Star_cons r1 _ H c s eq_refl) as (s1 & s2 & -> & H1 & H2).
    constructor; auto.
Qed.

Lemma match_prefix_spec (s : string) :
  forall r, match_prefix r s = true <-> exists p q, s = p ++ q /\ matches r p.
Proof.
  induction s as [|c s IH]; intros r; simpl.
  - rewrite orb_false_r, nullable_spec. split.
    + intros H. now exists "", "".
    + intros (p & q & E & H). symmetry in E. apply append_eq_nil in E.
      destruct E; now subst.
  - rewrite orb_true_iff, IH, nullable_spec. split.
    + intros [H | (p & q & -> & H)].
      * now exists "", (String c s).
      * exists (String c p), q. split; [reflexivity | now apply deriv_sound].
    + intros (p & q & E & H). destruct p as [|d p]; simpl in E.
      * now left.
      * injection E as -> ->. right. exists p, q. split; [reflexivity|].
        now apply deriv_complete.
Qed.

Lemma test_unfold (r : regex) (s : string) :
  test r s =
  match_prefix r s ||
  match s with
  | EmptyString => false
  | String _ s' => test r s'
  end.
Proof. destruct s; reflexivity. Qed.

(** [test] answers whether a substring of the subject is in the language. *)
Lemma test_spec (r : regex) (s : string) :
  test r s = true <-> exists a p q, s = a ++ p ++ q /\ matches r p.
Proof.
  induction s as [|c s IH]; rewrite test_unfold, orb_true_iff, match_prefix_spec.
  - split.
    + intros [(p & q & E & H) | F]; [|discriminate]. now exists "", p, q.
    + intros (a & p & q & E & H). left.
      destruct a; simpl in E; [|discriminate]. now exists p, q.
  - rewrite IH. split.
    + intros [(p & q & E & H) | (a & p & q & -> & H)].
      * now exists "", p, q.
      * now exists (String c a), p, q.
    + intros (a & p & q & E & H). destruct a as [|d a]; simpl in E.
      * left. now exists p, q.
      * injection E as -> ->. right. now exists a, p, q.
Qed.

(** The languages of the pieces of the handler's pattern. *)
Lemma matches_Str (t s : string) : matches (Str t) s <-> s = t.
Proof.
  revert s. induction t as [|c t IH]; intros s; simpl.
  - split; [apply inv_Eps | intros ->; constructor].
  - split.
    + intros H. apply inv_Seq in H. destruct H as (s1 & s2 & -> & H1 & H2).
      apply inv_Lit in H1. apply IH in H2. now subst.
    + intros ->. change (String c t) with (String c "" ++ t).
      constructor; [constructor | now apply IH].
Qed.

Lemma matches_Star_NonSpace (s : string) :
  matches (Star NonSpace) s <-> Str.forallb non_space s = true.
Proof.
  split.
  - intros H. remember (Star NonSpace) as q eqn:Q.
    induction H; try discriminate; injection Q as ->.
    + reflexivity.
    + rewrite forallb_append, IHmatches2 by reflexivity.
      apply inv_NonSpace in H. destruct H as (c & -> & N).
      simpl. now rewrite N.
  - induction s as [|c s IH]; simpl; intros H; [constructor|].
    apply andb_true_iff in H. destruct H as [Hc Hs].
    change (String c s) with (String c "" ++ s).
    constructor; [now constructor | auto].
Qed.

Lemma matches_Plus_NonSpace (s : string) :
  matches (Plus NonSpace) s <-> s <> "" /\ Str.forallb non_space s = true.
Proof.
  unfold Plus. split.
  - intros H. apply inv_Seq in H. destruct H as (s1 & s2 & -> & H1 & H2).
    apply inv_NonSpace in H1. destruct H1 as (c & -> & N).
    apply matches_Star_NonSpace in H2. simpl. rewrite N, H2.
    split; [discriminate | reflexivity].
  - intros [N H]. destruct s as [|c s]; [congruence|]. simpl in H.
    apply andb_true_iff in H. destruct H as [Hc Hs].
    change (String c s) with (String c "" ++ s).
    constructor; [now constructor | now apply matches_Star_NonSpace].
Qed.

End RegExpFacts.

(** ** The pattern of [addCustomHeaders] *)

Lemma matches_asset_dir (s : string) :
  RegExp.matches
    (RegExp.Alt (RegExp.Str "js") (RegExp.Alt (RegExp.Str "css") (RegExp.Str "img"))) s
  <-> is_asset_dir s = true.
Proof.
  unfold is_asset_dir. rewrite !orb_true_iff, !String.eqb_eq. split.
  - intros H. apply RegExpFacts.inv_Alt in H. destruct H as [H | H].
    + left. left. now apply RegExpFacts.matches_Str.
    + apply RegExpFacts.inv_Alt in H.
      destruct H as [H | H]; apply RegExpFacts.matches_Str in H; auto.
  - intros [[-> | ->] | ->].
    + apply RegExp.MAltL. now apply RegExpFacts.matches_Str.
    + apply RegExp.MAltR, RegExp.MAltL. now apply RegExpFacts.matches_Str.
    + apply RegExp.MAltR, RegExp.MAltR. now apply RegExpFacts.matches_Str.
Qed.

(** The language of the pattern: blanks-free text, a slash, an asset
    directory, a slash, blanks-free text. *)
Lemma matches_regex (p : string) :
  RegExp.matches regex p <->
  exists u dir v,
    p = u ++ "/" ++ dir ++ "/" ++ v /\
    (u <> "" /\ Str.forallb RegExp.non_space u = true) /\
    is_asset_dir dir = true /\
    (v <> "" /\ Str.forallb RegExp.non_space v = true).
Proof.
  unfold regex. split.
  - intros H.
    apply RegExpFacts.inv_Seq in H. destruct H as (u & p1 & -> & Hu & H).
    apply RegExpFacts.inv_Seq in H. destruct H as (sl1 & p2 & -> & Hs1 & H).
    apply RegExpFacts.inv_Seq in H. destruct H as (dir & p3 & -> & Hd & H).
    apply RegExpFacts.inv_Seq in H. destruct H as (sl2 & v & -> & Hs2 & Hv).
    apply RegExpFacts.inv_Lit in Hs1, Hs2. subst sl1 sl2.
    exists u, dir, v. split; [reflexivity|].
    split; [now apply RegExpFacts.matches_Plus_NonSpace|].
    split; [now apply matches_asset_dir|].
    now apply RegExpFacts.matches_Plus_NonSpace.
  - intros (u & dir & v & -> & Hu & Hd & Hv).
    constructor; [now apply RegExpFacts.matches_Plus_NonSpace|].
    constructor; [constructor|].
    constructor; [now apply matches_asset_dir|].
    constructor; [constructor|].
    now apply RegExpFacts.matches_Plus_NonSpace.
Qed.

(** What [regex.test] decides. *)
Lemma regex_test_spec (s : string) :
  RegExp.test regex s = true <-> asset_dir_inside s.
Proof.
  rewrite RegExpFacts.test_spec. unfold asset_dir_inside. split.
  - intros (a & p & q & -> & H). apply matches_regex in H.
    destruct H as (u & dir & v & -> & [Nu Hu] & Hd & [Nv Hv]).
    destruct (string_snoc u Nu) as (u' & c & ->).
    destruct v as [|d v]; [congruence|].
    rewrite forallb_append in Hu. simpl in Hu, Hv.
    apply andb_true_iff in Hu, Hv. destruct Hu as [_ Hc], Hv as [Hd' _].
    rewrite andb_true_r in Hc.
    exists (a ++ u'), c, dir, d, (v ++ q).
    split; [now norm_append | auto].
  - intros (pre & c & dir & d & post & -> & Hc & Hd' & Hd).
    exists pre, (String c "" ++ "/" ++ dir ++ "/" ++ String d ""), post.
    split; [now norm_append|].
    apply matches_regex. exists (String c ""), dir, (String d "").
    split; [reflexivity|]. simpl. rewrite Hc, Hd'.
    repeat split; auto; discriminate.
Qed.

Lemma regex_test_false (s : string) :
  RegExp.test regex s = false <-> ~ asset_dir_inside s.
Proof.
  rewrite <- regex_test_spec. destruct (RegExp.test regex s); split; congruence.
Qed.

(** ** The [URL] class on the URLs the mappers build *)

Module URLFacts.
Import URL.

Lemma length_append (s t : string) :
  String.length (s ++ t) = (String.length s + String.length t)%nat.
Proof. induction s as [|c s IH]; simpl; [reflexivity | now rewrite IH]. Qed.

Lemma strip_prefix_append (p r : string) : strip_prefix p (p ++ r) = Some r.
Proof.
  induction p as [|c p IH]; simpl; [reflexivity|].
  now rewrite Ascii.eqb_refl.
Qed.

Lemma strip_prefix_spec (p s r : string) :
  strip_prefix p s = Some r <-> s = p ++ r.
Proof.
  split; [|intros ->; apply strip_prefix_append].
  revert s. induction p as [|a p IH]; simpl; intros s H.
  - congruence.
  - destruct s as [|b s]; [discriminate|].
    destruct (Ascii.eqb_spec a b) as [->|_]; [|discriminate].
    now rewrite (IH s H).
Qed.

(** Whether [p] is a prefix is decided by the first [length p] characters. *)
Lemma strip_prefix_None_append (p : string) :
  forall x r t,
    (String.length p <= String.length x)%nat ->
    strip_prefix p (x ++ r) = None -> strip_prefix p (x ++ t) = None.
Proof.
  induction p as [|a p IH]; simpl; intros x r t L H; [discriminate|].
  destruct x as [|b x]; simpl in *; [lia|].
  destruct (Ascii.eqb a b); [|reflexivity].
  apply IH with r; [lia | assumption].
Qed.

Lemma split_at_rebuild (sep s : string) :
  forall before rest, split_at sep s = Some (before, rest) -> s = before ++ sep ++ rest.
Proof.
  induction s as [|c s IH]; intros before rest; simpl.
  - destruct (strip_prefix sep "") as [r|] eqn:E; [|discriminate].
    intros [= <- <-]. now apply strip_prefix_spec in E.
  - destruct (strip_prefix sep (String c s)) as [r|] eqn:E.
    + intros [= <- <-]. now apply strip_prefix_spec in E.
    + destruct (split_at sep s) as [[b r]|]; [|discriminate].
      intros [= <- <-]. simpl. now rewrite (IH b r eq_refl).
Qed.

Lemma split_at_unfold (sep s : string) :
  split_at sep s =
  match strip_prefix sep s with
  | Some rest => Some (EmptyString, rest)
  | None =>
      match s with
      | EmptyString => None
      | String c s' =>
          match split_at sep s' with
          | Some (before, rest) => Some (String c before, rest)
          | None => None
          end
      end
  end.
Proof. destruct s; reflexivity. Qed.

(** The cut stays where it is when what follows the separator changes. *)
Lemma split_at_stable (sep s : string) :
  forall before rest t,
    split_at sep s = Some (before, rest) ->
    split_at sep (before ++ sep ++ t) = Some (before, t).
Proof.
  induction s as [|c s IH]; intros before rest t; rewrite split_at_unfold.
  - destruct (strip_prefix sep "") as [r|]; [|discriminate].
    intros [= <- <-]. rewrite split_at_unfold. simpl.
    now rewrite strip_prefix_append.
  - destruct (strip_prefix sep (String c s)) as [r|] eqn:E.
    + intros [= <- <-]. rewrite split_at_unfold. simpl.
      now rewrite strip_prefix_append.
    + destruct (split_at sep s) as [[b r]|] eqn:S; [|discriminate].
      intros [= <- <-]. rewrite split_at_unfold.
      rewrite (split_at_rebuild _ _ _ _ S) in E.
      assert (N : strip_prefix sep (String c b ++ sep ++ t) = None).
      { rewrite <- append_assoc.
        apply strip_prefix_None_append with r.
        - simpl. rewrite length_append. lia.
        - rewrite append_assoc. exact E. }
      rewrite N. simpl. now rewrite (IH b r t eq_refl).
Qed.

Lemma take_until_clean (stop : ascii -> bool) (s : string) :
  Str.forallb (fun c => negb (stop c)) (Str.take_until stop s) = true.
Proof.
  induction s as [|c s IH]; simpl; [reflexivity|].
  destruct (stop c) eqn:E; simpl; [reflexivity | now rewrite E, IH].
Qed.

Lemma take_until_all (stop : ascii -> bool) (s : string) :
  Str.forallb (fun c => negb (stop c)) s = true ->
  Str.take_until stop s = s /\ Str.drop_until stop s = "".
Proof.
  induction s as [|c s IH]; simpl; intros H; [auto|].
  apply andb_true_iff in H. destruct H as [Hc Hs].
  destruct (stop c); [discriminate|].
  destruct (IH Hs) as [-> ->]. auto.
Qed.

Lemma take_until_append (stop : ascii -> bool) (a : string) (c : ascii) (rest : string) :
  Str.forallb (fun c => negb (stop c)) a = true ->
  stop c = true ->
  Str.take_until stop (a ++ String c rest) = a /\
  Str.drop_until stop (a ++ String c rest) = String c rest.
Proof.
  intros Ha Hc. induction a as [|d a IH]; simpl in *.
  - now rewrite Hc.
  - apply andb_true_iff in Ha. destruct Ha as [Hd Ha].
    destruct (stop d); [discriminate|].
    destruct (IH Ha) as [-> ->]. auto.
Qed.

(** The host is a piece of the authority, and has no ["@"]. *)
Lemma after_last_at_Some (p : ascii -> bool) (a : string) :
  forall h, after_last_at a = Some h ->
            after_last_at h = None /\ (Str.forallb p a = true -> Str.forallb p h = true).
Proof.
  induction a as [|c a IH]; simpl; intros h; [discriminate|].
  destruct (after_last_at a) as [h'|] eqn:E.
  - intros [= <-]. destruct (IH h' eq_refl) as [N F]. split; [assumption|].
    intros H. apply andb_true_iff in H. now apply F.
  - destruct (Ascii.eqb c "@"); [|discriminate].
    intros [= <-]. split; [assumption|].
    intros H. now apply andb_true_iff in H.
Qed.

Lemma strip_userinfo_host (p : ascii -> bool) (a : string) :
  strip_userinfo (strip_userinfo a) = strip_userinfo a /\
  (Str.forallb p a = true -> Str.forallb p (strip_userinfo a) = true).
Proof.
  unfold strip_userinfo at 2 3 4.
  destruct (after_last_at a) as [h|] eqn:E.
  - destruct (after_last_at_Some p a h E) as [N F].
    unfold strip_userinfo. now rewrite N.
  - unfold strip_userinfo. now rewrite E.
Qed.

(** A root-level path put after the origin of a hierarchical URL parses
    to that origin and that path, with no query and no fragment. *)
Lemma parse_origin_path (s scheme rest file : string) :
  split_at "://" s = Some (scheme, rest) ->
  Str.forallb (fun c => negb (is_path_end c)) file = true ->
  parse (origin (parse s) ++ String "/" file) =
  {| href := origin (parse s) ++ String "/" file;
     origin := origin (parse s);
     pathname := String "/" file;
     search := "";
     hash := "" |}.
Proof.
  intros S F.
  set (host := strip_userinfo (Str.take_until is_authority_end rest)).
  assert (O : origin (parse s) = scheme ++ "://" ++ host).
  { unfold parse. now rewrite S. }
  rewrite O. clear O.
  assert (Hh : strip_userinfo host = host /\
               Str.forallb (fun c => negb (is_authority_end c)) host = true).
  { destruct (strip_userinfo_host (fun c => negb (is_authority_end c))
                (Str.take_until is_authority_end rest)) as [I P].
    split; [exact I | apply P, take_until_clean]. }
  destruct Hh as [Hi Hc].
  unfold parse. rewrite !append_assoc.
  rewrite (split_at_stable "://" s scheme rest (host ++ String "/" file) S).
  destruct (take_until_append is_authority_end host "/" file Hc eq_refl) as [-> ->].
  assert (Fp : Str.forallb (fun c => negb (is_path_end c)) (String "/" file) = true).
  { simpl. exact F. }
  destruct (take_until_all is_path_end (String "/" file) Fp) as [-> ->].
  rewrite Hi. reflexivity.
Qed.

End URLFacts.

(** ** [Headers] *)

Lemma values_app (name : string) (h1 h2 : Headers.t) :
  Headers.values name (h1 ++ h2)%list =
  (Headers.values name h1 ++ Headers.values name h2)%list.
Proof. unfold Headers.values. now rewrite filter_app, map_app. Qed.

Lemma values_absent (name : string) (h : Headers.t) :
  Headers.has name h = false -> Headers.values name h = [].
Proof.
  unfold Headers.has, Headers.values. induction h as [|e h IH]; simpl; [reflexivity|].
  destruct (String.eqb (fst e) (Str.toLowerCase name)); simpl; [discriminate | exact IH].
Qed.

(** What [addCustomHeaders] leaves in the header list. *)
Lemma addCustomHeaders_headers (requestURL : URL.t) (response : Response) :
  headers (addCustomHeaders requestURL response) =
  (headers response ++
   [ ("cache-control",
      if RegExp.test regex (URL.href requestURL) then immutable else revalidate);
     ("x-frame-options", "DENY");
     ("x-content-type-options", "nosniff");
     ("x-xss-protection", "1; mode=block");
     ("referrer-policy", "no-referrer") ])%list.
Proof.
  unfold addCustomHeaders, URL.toString, Headers.append. cbn [headers with_headers].
  destruct (RegExp.test regex (URL.href requestURL));
    now rewrite <- !app_assoc.
Qed.

Lemma addCustomHeaders_status (requestURL : URL.t) (response : Response) :
  status (addCustomHeaders requestURL response) = status response.
Proof. reflexivity. Qed.

Lemma addCustomHeaders_body (requestURL : URL.t) (response : Response) :
  body (addCustomHeaders requestURL response) = body response.
Proof. reflexivity. Qed.

Lemma href_parse (s : string) : URL.href (URL.parse s) = s.
Proof. unfold URL.parse. now destruct (URL.split_at "://" s) as [[? ?]|]. Qed.

(** ** The handler, case by case *)

Section WorkerFacts.

Variable KV : Type.
Variable mapRequestToAsset : Request -> Request.
Variable kvAssetHandler : FetchEvent -> Options.t -> KV -> result Response * KV.
Variable ownFields : bool.
Variable InvalidStateError : JsError.

Abbreviation primary := (primaryOptions mapRequestToAsset).

(** One equation for the whole of [handleEvent]: what it returns and
    what it asked of the store, by the outcomes of the lookups. *)
Lemma handleEventWith_run (debug : bool) (event : FetchEvent) (w : World KV) :
  handleEventWith mapRequestToAsset kvAssetHandler ownFields debug event w =
  match kvAssetHandler event (primary debug) (kv w) with
  | (Ok response, k1) =>
      (Ok (addCustomHeaders (URL.parse (url (request event))) response),
       fetched w k1 [(event, primary debug)])
  | (Throw e, k1) =>
      if debug
      then (Ok (errorResponse (message_or_toString e)),
            fetched w k1 [(event, primary debug)])
      else
        match kvAssetHandler event notFoundOptions k1 with
        | (Ok notFoundResponse, k2) =>
            (Ok (notFoundPage ownFields notFoundResponse),
             fetched w k2 [(event, primary debug); (event, notFoundOptions)])
        | (Throw _, k2) =>
            (Ok (errorResponse (message_or_toString e)),
             fetched w k2 [(event, primary debug); (event, notFoundOptions)])
        end
  end.
Proof.
  unfold handleEventWith, try_catch, bind, ret, getAssetFromKV, fetched, primaryOptions.
  destruct debug; cbn [negb kv fetches respondWithEntered responses Options.mapRequestToAsset].
  - destruct (kvAssetHandler event _ (kv w)) as [[response|e] k1]; reflexivity.
  - destruct (kvAssetHandler event _ (kv w)) as [[response|e] k1]; [reflexivity|].
    cbn [kv fetches respondWithEntered responses].
    fold notFoundOptions.
    destruct (kvAssetHandler event notFoundOptions k1) as [[nf|e2] k2];
      cbn [fetches]; rewrite <- app_assoc; reflexivity.
Qed.

(** [handleEvent] never throws. *)
Lemma handleEventWith_returns (debug : bool) (event : FetchEvent) (w : World KV) :
  exists response w', handleEventWith mapRequestToAsset kvAssetHandler ownFields debug event w = (Ok response, w').
Proof.
  rewrite handleEventWith_run.
  destruct (kvAssetHandler event (primary debug) (kv w)) as [[r|e] k1]; [eauto|].
  destruct debug; [eauto|].
  destruct (kvAssetHandler event notFoundOptions k1) as [[nf|e2] k2]; eauto.
Qed.

(** [handleEvent] leaves the event's flag and the [respondWith] log alone. *)
Lemma handleEventWith_event (debug : bool) (event : FetchEvent) (w : World KV) :
  let w' := snd (handleEventWith mapRequestToAsset kvAssetHandler ownFields debug event w) in
  respondWithEntered w' = respondWithEntered w /\ responses w' = responses w.
Proof.
  rewrite handleEventWith_run.
  destruct (kvAssetHandler event (primary debug) (kv w)) as [[r|e] k1]; [now split|].
  destruct debug; [now split|].
  destruct (kvAssetHandler event notFoundOptions k1) as [[nf|e2] k2]; now split.
Qed.

(** The listener: one [respondWith] with the outcome of [handleEvent];
    when that call throws, a second one from the [catch] block, which
    throws in turn. *)
Lemma fetchListenerWith_run (debug : bool) (event : FetchEvent) (w : World KV) :
  fetchListenerWith mapRequestToAsset kvAssetHandler ownFields InvalidStateError debug event w =
  let (p, w1) := handleEventWith mapRequestToAsset kvAssetHandler ownFields debug event w in
  if respondWithEntered w
  then (Throw InvalidStateError,
        {| kv := kv w1;
           fetches := fetches w1;
           respondWithEntered := true;
           responses :=
             (responses w ++
              [p; Ok (errorResponse (if debug then message_or_toString InvalidStateError
                                     else "Internal Error"))])%list |})
  else (Ok tt,
        {| kv := kv w1;
           fetches := fetches w1;
           respondWithEntered := true;
           responses := (responses w ++ [p])%list |}).
Proof.
  pose proof (handleEventWith_event debug event w) as Ev.
  unfold fetchListenerWith, try_catch, bind, async, respondWith.
  destruct (handleEventWith mapRequestToAsset kvAssetHandler ownFields debug event w)
    as [p w1].
  cbn [snd] in Ev. destruct Ev as [-> ->].
  destruct (respondWithEntered w); [|reflexivity].
  cbn [kv fetches respondWithEntered responses].
  destruct debug; cbn [kv fetches respondWithEntered responses];
    rewrite <- app_assoc; reflexivity.
Qed.

End WorkerFacts.

(** ** The headers of a served asset *)

(** Each header [addCustomHeaders] writes gets one more value, after the
    values the store's response had for it. *)
Lemma addCustomHeaders_values (requestURL : URL.t) (response : Response) :
  Forall (fun nv =>
            Headers.values (fst nv) (headers (addCustomHeaders requestURL response)) =
            (Headers.values (fst nv) (headers response) ++ [snd nv])%list)
         (("Cache-Control",
           if RegExp.test regex (URL.href requestURL) then immutable else revalidate)
          :: securityHeaders).
Proof.
  rewrite addCustomHeaders_headers.
  generalize (if RegExp.test regex (URL.href requestURL) then immutable else revalidate).
  intros v. unfold securityHeaders.
  repeat constructor; cbn [fst snd]; rewrite values_app; reflexivity.
Qed.

Lemma get_single (name value : string) (h : Headers.t) :
  Headers.values name h = [value] -> Headers.get name h = Some value.
Proof. unfold Headers.get. now intros ->. Qed.

Lemma appended_value (name value : string) (h h' : Headers.t) :
  Headers.values name h' = (Headers.values name h ++ [value])%list ->
  carries h' name value /\
  (Headers.has name h = false -> Headers.get name h' = Some value).
Proof.
  intros E. split.
  - unfold carries. rewrite E. apply in_or_app. right. now left.
  - intros A. apply get_single. now rewrite E, (values_absent _ _ A).
Qed.

Section Claims.

Variable KV : Type.
Variable mapRequestToAsset : Request -> Request.
Variable kvAssetHandler : FetchEvent -> Options.t -> KV -> result Response * KV.
Variable ownFields : bool.
Variable InvalidStateError : JsError.

(** C1, as amended.  When the primary lookup succeeds, the response
    [handleEvent] returns carries the four security headers
    [X-Frame-Options: DENY], [X-Content-Type-Options: nosniff],
    [X-XSS-Protection: 1; mode=block] and [Referrer-Policy: no-referrer],
    whatever the request URL; each is the header's only value when the
    store's response did not have that header. *)
Theorem served_asset_has_security_headers
        (event : FetchEvent) (w : World KV) (r : Response) (k1 : KV) :
  kvAssetHandler event (primaryOptions mapRequestToAsset DEBUG) (kv w) = (Ok r, k1) ->
  exists response w',
    handleEvent mapRequestToAsset kvAssetHandler ownFields event w = (Ok response, w') /\
    Forall (fun nv =>
              carries (headers response) (fst nv) (snd nv) /\
              (Headers.has (fst nv) (headers r) = false ->
               Headers.get (fst nv) (headers response) = Some (snd nv)))
           securityHeaders.
Proof.
  intros P. unfold handleEvent. rewrite handleEventWith_run, P.
  eexists. eexists. split; [reflexivity|].
  pose proof (addCustomHeaders_values (URL.parse (url (request event))) r) as V.
  inversion V as [|? ? _ S]; subst. clear V.
  eapply Forall_impl; [|exact S].
  intros [name value] E. now apply appended_value.
Qed.

(** C3, as amended.  When the primary lookup succeeds, the value of
    [Cache-Control] that [handleEvent] appends is
    [public, max-age=31536000, immutable] if the request URL, taken as a
    whole string, has [/js/], [/css/] or [/img/] with a non-blank
    character right before it and right after it, and [must-revalidate]
    otherwise; it is the header's only value when the store's response
    had no [Cache-Control]. *)
Theorem cache_control_of_served_asset
        (event : FetchEvent) (w : World KV) (r : Response) (k1 : KV) :
  kvAssetHandler event (primaryOptions mapRequestToAsset DEBUG) (kv w) = (Ok r, k1) ->
  exists response w',
    handleEvent mapRequestToAsset kvAssetHandler ownFields event w = (Ok response, w') /\
    (asset_dir_inside (url (request event)) ->
     carries (headers response) "Cache-Control" immutable /\
     (Headers.has "Cache-Control" (headers r) = false ->
      Headers.get "Cache-Control" (headers response) = Some immutable)) /\
    (~ asset_dir_inside (url (request event)) ->
     carries (headers response) "Cache-Control" revalidate /\
     (Headers.has "Cache-Control" (headers r) = false ->
      Headers.get "Cache-Control" (headers response) = Some revalidate)).
Proof.
  intros P. unfold handleEvent. rewrite handleEventWith_run, P.
  eexists. eexists. split; [reflexivity|].
  pose proof (addCustomHeaders_values (URL.parse (url (request event))) r) as V.
  inversion V as [|? ? C _]; subst. clear V.
  rewrite href_parse in C. cbn [fst snd] in C.
  split; intros A.
  - apply regex_test_spec in A. rewrite A in C. now apply appended_value.
  - apply regex_test_false in A. rewrite A in C. now apply appended_value.
Qed.

(** C9.  The caching branch tests the pattern on the whole URL string:
    for a served asset the header list is the store's, then
    [Cache-Control] with the value chosen by [regex.test] on the request
    URL, then the security headers.  So a URL whose path has no [js],
    [css] or [img] segment but whose query contains [/js/x] gets the
    immutable value, and a URL whose path ends in [/js/] does not. *)
Theorem cache_control_tests_whole_url :
  (forall (event : FetchEvent) (w : World KV) (r : Response) (k1 : KV),
      kvAssetHandler event (primaryOptions mapRequestToAsset DEBUG) (kv w) = (Ok r, k1) ->
      exists response w',
        handleEvent mapRequestToAsset kvAssetHandler ownFields event w = (Ok response, w') /\
        headers response =
        (headers r ++
         [ ("cache-control",
            if RegExp.test regex (url (request event)) then immutable else revalidate);
           ("x-frame-options", "DENY");
           ("x-content-type-options", "nosniff");
           ("x-xss-protection", "1; mode=block");
           ("referrer-policy", "no-referrer") ])%list) /\
  (exists u,
      has_asset_segment (URL.pathname (URL.parse u)) = false /\
      occurs "/js/x" (URL.search (URL.parse u)) /\
      RegExp.test regex u = true) /\
  (exists u,
      Str.endsWith (URL.pathname (URL.parse u)) "/js/" = true /\
      has_asset_segment (URL.pathname (URL.parse u)) = true /\
      RegExp.test regex u = false).
Proof.
  split; [|split].
  - intros event w r k1 P. unfold handleEvent. rewrite handleEventWith_run, P.
    eexists. eexists. split; [reflexivity|].
    now rewrite addCustomHeaders_headers, href_parse.
  - exists "https://example.com/?next=/js/x".
    split; [reflexivity|]. split; [|reflexivity].
    exists "?next=", "". reflexivity.
  - exists "https://example.com/js/". repeat split; reflexivity.
Qed.

(** C2, as amended.  A 500 response that [handleEvent] builds (the
    primary lookup threw and, with debug disabled, the lookup of the
    not-found page threw too) has the thrown error's message as body, or
    its string form when it has no message, whatever the debug flag.
    The literal ["Internal Error"] is the body of the response the
    listener's [catch] block hands to [respondWith] when debug is
    disabled; with debug enabled that block uses the raw message. *)
Theorem error_bodies :
  (forall (debug : bool) (event : FetchEvent) (w : World KV) (e : JsError) (k1 : KV),
      kvAssetHandler event (primaryOptions mapRequestToAsset debug) (kv w) = (Throw e, k1) ->
      (debug = false ->
       exists e2 k2, kvAssetHandler event notFoundOptions k1 = (Throw e2, k2)) ->
      exists response w',
        handleEventWith mapRequestToAsset kvAssetHandler ownFields debug event w
        = (Ok response, w') /\
        status response = 500%Z /\
        body response = Some (message_or_toString e)) /\
  (forall (debug : bool) (event : FetchEvent) (w : World KV),
      respondWithEntered w = true ->
      exists p w',
        fetchListenerWith mapRequestToAsset kvAssetHandler ownFields InvalidStateError
                          debug event w
        = (Throw InvalidStateError, w') /\
        responses w' =
        (responses w ++
         [p; Ok (errorResponse (if debug then message_or_toString InvalidStateError
                                else "Internal Error"))])%list).
Proof.
  split.
  - intros debug event w e k1 P F. rewrite handleEventWith_run, P.
    destruct debug.
    + eexists. eexists. split; [reflexivity|]. now split.
    + destruct (F eq_refl) as (e2 & k2 & ->).
      eexists. eexists. split; [reflexivity|]. now split.
  - intros debug event w R. rewrite fetchListenerWith_run.
    destruct (handleEventWith mapRequestToAsset kvAssetHandler ownFields debug event w)
      as [p w1].
    rewrite R. eexists. eexists. split; reflexivity.
Qed.

(** C4.  With debug disabled, when the primary lookup throws and the
    lookup of the not-found page succeeds, [handleEvent] returns a
    response with status 404 and the body of the not-found page.  That
    second lookup is made with a mapper that sends every request to
    [/404.html] at the root of the request's origin, whatever its path. *)
Theorem not_found_page_is_served
        (event : FetchEvent) (w : World KV) (e : JsError) (k1 : KV)
        (notFoundResponse : Response) (k2 : KV) :
  kvAssetHandler event (primaryOptions mapRequestToAsset false) (kv w) = (Throw e, k1) ->
  kvAssetHandler event notFoundOptions k1 = (Ok notFoundResponse, k2) ->
  exists response w',
    handleEventWith mapRequestToAsset kvAssetHandler ownFields false event w
    = (Ok response, w') /\
    status response = 404%Z /\
    body response = body notFoundResponse /\
    fetches w' =
    (fetches w ++ [(event, primaryOptions mapRequestToAsset false);
                   (event, notFoundOptions)])%list /\
    (forall req,
        url (Options.mapRequestToAsset notFoundOptions req) =
        URL.origin (URL.parse (url req)) ++ "/404.html") /\
    (forall req scheme rest,
        URL.split_at "://" (url req) = Some (scheme, rest) ->
        let asset := URL.parse (url (Options.mapRequestToAsset notFoundOptions req)) in
        URL.origin asset = URL.origin (URL.parse (url req)) /\
        URL.pathname asset = "/404.html" /\
        URL.search asset = "" /\ URL.hash asset = "").
Proof.
  intros P N. rewrite handleEventWith_run, P, N.
  eexists. eexists. split; [reflexivity|].
  repeat split.
  all: intros; cbn [Options.mapRequestToAsset notFoundOptions notFoundMapper url new_Request];
    erewrite URLFacts.parse_origin_path by (try eassumption; reflexivity);
    reflexivity.
Qed.

(** C5.  When the primary lookup throws and the lookup of the not-found
    page throws as well, [handleEvent] does not throw: it returns a
    response with status 500, made from the first error; the second
    error is dropped. *)
Theorem both_lookups_fail
        (event : FetchEvent) (w : World KV) (e : JsError) (k1 : KV)
        (e2 : JsError) (k2 : KV) :
  kvAssetHandler event (primaryOptions mapRequestToAsset DEBUG) (kv w) = (Throw e, k1) ->
  kvAssetHandler event notFoundOptions k1 = (Throw e2, k2) ->
  exists response w',
    handleEvent mapRequestToAsset kvAssetHandler ownFields event w = (Ok response, w') /\
    status response = 500%Z /\
    response = errorResponse (message_or_toString e).
Proof.
  intros P N. unfold handleEvent. rewrite handleEventWith_run, P.
  unfold DEBUG. rewrite N.
  eexists. eexists. split; [reflexivity|]. now split.
Qed.

(** C6.  The mapper of the primary lookup applies the store's default
    mapper first.  If the URL it gives ends in [/index.html], the result
    is a request for [/index.html] at the root of that URL's origin (with
    the method and headers of the mapped request); otherwise the result
    is the default mapper's, unchanged. *)
Theorem asset_mapper_rewrites_index (req : Request) :
  let mapped := mapRequestToAsset req in
  (Str.endsWith (url mapped) "/index.html" = true ->
   assetMapper mapRequestToAsset req =
   new_Request (URL.origin (URL.parse (url mapped)) ++ "/index.html") mapped /\
   (forall scheme rest,
       URL.split_at "://" (url mapped) = Some (scheme, rest) ->
       let asset := URL.parse (url (assetMapper mapRequestToAsset req)) in
       URL.origin asset = URL.origin (URL.parse (url mapped)) /\
       URL.pathname asset = "/index.html" /\
       URL.search asset = "" /\ URL.hash asset = "")) /\
  (Str.endsWith (url mapped) "/index.html" = false ->
   assetMapper mapRequestToAsset req = mapped).
Proof.
  intros mapped. unfold assetMapper. fold mapped. split; intros E; rewrite E.
  - split; [reflexivity|]. intros scheme rest S. cbn [url new_Request].
    erewrite URLFacts.parse_origin_path by (try eassumption; reflexivity).
    repeat split.
  - reflexivity.
Qed.

(** C7.  For every event [handleEvent] returns a response and does not
    throw; its status is the status of the store's response to the
    primary lookup, when that lookup succeeded, or 404, or 500.  The
    listener of an event not yet responded to passes that one response
    to [respondWith], once, and does not throw either. *)
Theorem one_response_per_request (event : FetchEvent) (k : KV) :
  exists response w',
    handleEvent mapRequestToAsset kvAssetHandler ownFields event (start k)
    = (Ok response, w') /\
    ((exists r k1,
         kvAssetHandler event (primaryOptions mapRequestToAsset DEBUG) k = (Ok r, k1) /\
         status response = status r) \/
     status response = 404%Z \/
     status response = 500%Z) /\
    fetchListener mapRequestToAsset kvAssetHandler ownFields InvalidStateError
                  event (start k)
    = (Ok tt, {| kv := kv w';
                 fetches := fetches w';
                 respondWithEntered := true;
                 responses := [Ok response] |}).
Proof.
  unfold fetchListener. rewrite fetchListenerWith_run.
  unfold handleEvent, DEBUG. rewrite !handleEventWith_run. cbn [kv start].
  destruct (kvAssetHandler event (primaryOptions mapRequestToAsset false) k)
    as [[r|e] k1] eqn:P.
  - eexists. eexists. split; [reflexivity|]. split; [|reflexivity].
    left. exists r, k1. now split.
  - destruct (kvAssetHandler event notFoundOptions k1) as [[nf|e2] k2].
    + eexists. eexists. split; [reflexivity|]. split; [|reflexivity].
      right. left. reflexivity.
    + eexists. eexists. split; [reflexivity|]. split; [|reflexivity].
      right. right. reflexivity.
Qed.

(** C8.  Two runs of [handleEvent] on the same event, in two worlds in
    which the store answers the two lookups alike, return responses with
    the same status and the same headers. *)
Theorem same_store_answers_same_response (event : FetchEvent) (w1 w2 : World KV) :
  let primary := primaryOptions mapRequestToAsset DEBUG in
  fst (kvAssetHandler event primary (kv w1)) = fst (kvAssetHandler event primary (kv w2)) ->
  fst (kvAssetHandler event notFoundOptions (snd (kvAssetHandler event primary (kv w1)))) =
  fst (kvAssetHandler event notFoundOptions (snd (kvAssetHandler event primary (kv w2)))) ->
  exists response1 w1' response2 w2',
    handleEvent mapRequestToAsset kvAssetHandler ownFields event w1 = (Ok response1, w1') /\
    handleEvent mapRequestToAsset kvAssetHandler ownFields event w2 = (Ok response2, w2') /\
    status response1 = status response2 /\
    headers response1 = headers response2.
Proof.
  intros primary. unfold handleEvent. rewrite !handleEventWith_run.
  fold primary. unfold DEBUG.
  destruct (kvAssetHandler event primary (kv w1)) as [[r1|e1] k1];
    destruct (kvAssetHandler event primary (kv w2)) as [[r2|e2] k2];
    cbn [fst snd]; intros P; try discriminate; injection P as ->.
  - intros _. do 4 eexists. repeat split.
  - destruct (kvAssetHandler event notFoundOptions k1) as [[n1|f1] j1];
      destruct (kvAssetHandler event notFoundOptions k2) as [[n2|f2] j2];
      cbn [fst]; intros N; try discriminate.
    + injection N as ->. do 4 eexists. repeat split.
    + do 4 eexists. repeat split.
Qed.

(** C10.  [DEBUG] is [false].  So on every run of [handleEvent] the
    primary lookup is made with the handler's mapper and without a
    [cacheControl] option, no lookup of the run has one, and when the
    primary lookup throws the not-found page is looked up next.  When
    the listener's [catch] block runs, it answers ["Internal Error"],
    not the error's message. *)
Theorem debug_is_off (event : FetchEvent) (w : World KV) :
  DEBUG = false /\
  (let w' := snd (handleEvent mapRequestToAsset kvAssetHandler ownFields event w) in
   exists later,
     fetches w' =
     (fetches w ++ (event, Options.mk (assetMapper mapRequestToAsset) None) :: later)%list /\
     Forall (fun call => Options.cacheControl (snd call) = None) later /\
     (forall e k1,
         kvAssetHandler event (primaryOptions mapRequestToAsset DEBUG) (kv w) = (Throw e, k1) ->
         later = [(event, notFoundOptions)])) /\
  (respondWithEntered w = true ->
   exists p,
     responses (snd (fetchListener mapRequestToAsset kvAssetHandler ownFields
                                   InvalidStateError event w)) =
     (responses w ++ [p; Ok (errorResponse "Internal Error")])%list).
Proof.
  split; [reflexivity|]. split.
  - unfold handleEvent, DEBUG. rewrite handleEventWith_run. cbn [primaryOptions].
    destruct (kvAssetHandler event _ (kv w)) as [[r|e] k1].
    + exists []. repeat split; [constructor | discriminate].
    + destruct (kvAssetHandler event notFoundOptions k1) as [[nf|e2] k2];
        exists [(event, notFoundOptions)]; repeat split; repeat constructor.
  - intros R. unfold fetchListener. rewrite fetchListenerWith_run.
    destruct (handleEventWith mapRequestToAsset kvAssetHandler ownFields DEBUG event w)
      as [p w1].
    rewrite R. exists p. reflexivity.
Qed.

End Claims.

(** ** The handler on the small store *)

(** C1 as stated fails on the error paths: the 500 response, and the 404
    response made from the not-found page, have none of the four
    security headers. *)
Lemma error_responses_lack_security_headers :
  (exists response,
      Demo.handle false DEBUG "https://example.com/missing.png" Demo.bareSite = Ok response /\
      status response = 500%Z /\
      Forall (fun nv => Headers.get (fst nv) (headers response) = None) securityHeaders) /\
  (exists response,
      Demo.handle true DEBUG "https://example.com/missing.png" Demo.site = Ok response /\
      status response = 404%Z /\
      Forall (fun nv => Headers.get (fst nv) (headers response) = None) securityHeaders).
Proof.
  split; eexists; (split; [vm_compute; reflexivity|]);
    (split; [reflexivity | repeat constructor]).
Qed.

Lemma served_asset_has_security_headers_witness :
  exists response w',
    handleEvent Demo.mapRequestToAsset Demo.kvAssetHandler false
                (Demo.GET "https://example.com/js/app.3f2a.js") (start Demo.site)
    = (Ok response, w') /\
    Forall (fun nv =>
              carries (headers response) (fst nv) (snd nv) /\
              (Headers.has (fst nv) [("content-type", "application/javascript")] = false ->
               Headers.get (fst nv) (headers response) = Some (snd nv)))
           securityHeaders.
Proof.
  apply (served_asset_has_security_headers
           Demo.KV Demo.mapRequestToAsset Demo.kvAssetHandler false
           (Demo.GET "https://example.com/js/app.3f2a.js") (start Demo.site)
           {| status := 200;
              headers := [("content-type", "application/javascript")];
              body := Some "console.log(1)" |}
           Demo.site).
  reflexivity.
Defined.

(** C2 as stated fails: with debug disabled, the 500 response of a
    request for which both lookups fail has the store's error message as
    body, not ["Internal Error"]. *)
Lemma production_500_has_raw_message :
  DEBUG = false /\
  exists response,
    Demo.handle false DEBUG "https://example.com/missing.png" Demo.bareSite = Ok response /\
    status response = 500%Z /\
    body response = Some "could not find /missing.png in your content namespace" /\
    body response <> Some "Internal Error".
Proof.
  split; [reflexivity|]. eexists. split; [vm_compute; reflexivity|].
  split; [reflexivity|]. split; [reflexivity | discriminate].
Qed.

Lemma error_bodies_witness :
  (exists response w',
      handleEventWith Demo.mapRequestToAsset Demo.kvAssetHandler false false
                      (Demo.GET "https://example.com/missing.png") (start Demo.bareSite)
      = (Ok response, w') /\
      status response = 500%Z /\
      body response = Some "could not find /missing.png in your content namespace") /\
  (exists p w',
      fetchListenerWith Demo.mapRequestToAsset Demo.kvAssetHandler false
                        Demo.InvalidStateError false
                        (Demo.GET "https://example.com/missing.png")
                        {| kv := Demo.bareSite; fetches := [];
                           respondWithEntered := true; responses := [] |}
      = (Throw Demo.InvalidStateError, w') /\
      responses w' = [p; Ok (errorResponse "Internal Error")]).
Proof.
  pose proof (error_bodies Demo.KV Demo.mapRequestToAsset Demo.kvAssetHandler false
                           Demo.InvalidStateError) as [H L].
  split.
  - apply (H false (Demo.GET "https://example.com/missing.png") (start Demo.bareSite)
             (Demo.NotFoundError "/missing.png") Demo.bareSite).
    + reflexivity.
    + intros _. exists (Demo.NotFoundError "/404.html"), Demo.bareSite. reflexivity.
  - apply (L false (Demo.GET "https://example.com/missing.png")
             {| kv := Demo.bareSite; fetches := [];
                respondWithEntered := true; responses := [] |}).
    reflexivity.
Defined.

(** C3 as stated fails in both directions: a served request whose path
    has the segment [js] gets [must-revalidate], and a served request
    whose path has no such segment gets the immutable value. *)
Lemma cache_control_is_not_by_path_segment :
  (exists response,
      Demo.handle false DEBUG "https://example.com/js/" Demo.site = Ok response /\
      status response = 200%Z /\
      has_asset_segment (URL.pathname (URL.parse "https://example.com/js/")) = true /\
      Headers.get "Cache-Control" (headers response) = Some revalidate) /\
  (exists response,
      Demo.handle false DEBUG "https://example.com/docs/js" Demo.site = Ok response /\
      status response = 200%Z /\
      has_asset_segment (URL.pathname (URL.parse "https://example.com/docs/js")) = true /\
      Headers.get "Cache-Control" (headers response) = Some revalidate) /\
  (exists response,
      Demo.handle false DEBUG "https://example.com/?next=/js/x" Demo.site = Ok response /\
      status response = 200%Z /\
      has_asset_segment (URL.pathname (URL.parse "https://example.com/?next=/js/x")) = false /\
      Headers.get "Cache-Control" (headers response) = Some immutable).
Proof.
  repeat split; eexists; (split; [vm_compute; reflexivity|]); repeat split.
Qed.

Lemma cache_control_of_served_asset_witness :
  (exists response w',
      handleEvent Demo.mapRequestToAsset Demo.kvAssetHandler false
                  (Demo.GET "https://example.com/js/app.3f2a.js") (start Demo.site)
      = (Ok response, w') /\
      Headers.get "Cache-Control" (headers response) = Some immutable) /\
  (exists response w',
      handleEvent Demo.mapRequestToAsset Demo.kvAssetHandler false
                  (Demo.GET "https://example.com/js/") (start Demo.site)
      = (Ok response, w') /\
      Headers.get "Cache-Control" (headers response) = Some revalidate).
Proof.
  split.
  - destruct (cache_control_of_served_asset
                Demo.KV Demo.mapRequestToAsset Demo.kvAssetHandler false
                (Demo.GET "https://example.com/js/app.3f2a.js") (start Demo.site)
                {| status := 200;
                   headers := [("content-type", "application/javascript")];
                   body := Some "console.log(1)" |}
                Demo.site eq_refl)
      as (response & w' & E & Yes & _).
    exists response, w'. split; [exact E|]. apply Yes; [|reflexivity].
    exists "https://example.co", "m"%char, "js", "a"%char, "pp.3f2a.js".
    repeat split.
  - destruct (cache_control_of_served_asset
                Demo.KV Demo.mapRequestToAsset Demo.kvAssetHandler false
                (Demo.GET "https://example.com/js/") (start Demo.site)
                {| status := 200;
                   headers := [("content-type", "text/html")];
                   body := Some "<h1>home</h1>" |}
                Demo.site eq_refl)
      as (response & w' & E & _ & No).
    exists response, w'. split; [exact E|]. apply No; [|reflexivity].
    apply regex_test_false. reflexivity.
Defined.

Lemma not_found_page_is_served_witness :
  exists response w',
    handleEventWith Demo.mapRequestToAsset Demo.kvAssetHandler false false
                    (Demo.GET "https://example.com/missing.png") (start Demo.site)
    = (Ok response, w') /\
    status response = 404%Z /\
    body response = Some "<h1>not found</h1>" /\
    fetches w' =
    [(Demo.GET "https://example.com/missing.png",
      primaryOptions Demo.mapRequestToAsset false);
     (Demo.GET "https://example.com/missing.png", notFoundOptions)] /\
    url (Options.mapRequestToAsset notFoundOptions
           (request (Demo.GET "https://example.com/missing.png")))
    = "https://example.com/404.html".
Proof.
  destruct (not_found_page_is_served
              Demo.KV Demo.mapRequestToAsset Demo.kvAssetHandler false
              (Demo.GET "https://example.com/missing.png") (start Demo.site)
              (Demo.NotFoundError "/missing.png") Demo.site
              {| status := 200;
                 headers := [("content-type", "text/html")];
                 body := Some "<h1>not found</h1>" |}
              Demo.site eq_refl eq_refl)
    as (response & w' & E & S & B & F & M & _).
  exists response, w'.
  split; [exact E|]. split; [exact S|]. split; [exact B|]. split; [exact F|].
  rewrite M. reflexivity.
Defined.

Lemma both_lookups_fail_witness :
  exists response w',
    handleEvent Demo.mapRequestToAsset Demo.kvAssetHandler false
                (Demo.GET "https://example.com/missing.png") (start Demo.bareSite)
    = (Ok response, w') /\
    status response = 500%Z /\
    response = errorResponse "could not find /missing.png in your content namespace".
Proof.
  apply (both_lookups_fail
           Demo.KV Demo.mapRequestToAsset Demo.kvAssetHandler false
           (Demo.GET "https://example.com/missing.png") (start Demo.bareSite)
           (Demo.NotFoundError "/missing.png") Demo.bareSite
           (Demo.NotFoundError "/404.html") Demo.bareSite);
    reflexivity.
Defined.

Lemma asset_mapper_rewrites_index_witness :
  url (assetMapper Demo.mapRequestToAsset
         (request (Demo.GET "https://example.com/docs/guide/")))
  = "https://example.com/index.html" /\
  url (assetMapper Demo.mapRequestToAsset
         (request (Demo.GET "https://example.com/js/app.3f2a.js")))
  = "https://example.com/js/app.3f2a.js".
Proof.
  split.
  - destruct (asset_mapper_rewrites_index Demo.mapRequestToAsset
                (request (Demo.GET "https://example.com/docs/guide/"))) as [Index _].
    destruct (Index eq_refl) as [-> _]. reflexivity.
  - destruct (asset_mapper_rewrites_index Demo.mapRequestToAsset
                (request (Demo.GET "https://example.com/js/app.3f2a.js"))) as [_ Other].
    rewrite (Other eq_refl). reflexivity.
Defined.

Lemma same_store_answers_same_response_witness :
  exists response1 w1' response2 w2',
    handleEvent Demo.mapRequestToAsset Demo.kvAssetHandler false
                (Demo.GET "https://example.com/missing.png") (start Demo.site)
    = (Ok response1, w1') /\
    handleEvent Demo.mapRequestToAsset Demo.kvAssetHandler false
                (Demo.GET "https://example.com/missing.png")
                {| kv := Demo.site;
                   fetches := [(Demo.GET "https://example.com/", notFoundOptions)];
                   respondWithEntered := true;
                   responses := [] |}
    = (Ok response2, w2') /\
    status response1 = status response2 /\
    headers response1 = headers response2.
Proof.
  apply (same_store_answers_same_response
           Demo.KV Demo.mapRequestToAsset Demo.kvAssetHandler false
           (Demo.GET "https://example.com/missing.png") (start Demo.site)
           {| kv := Demo.site;
              fetches := [(Demo.GET "https://example.com/", notFoundOptions)];
              respondWithEntered := true;
              responses := [] |});
    reflexivity.
Defined.

Lemma cache_control_tests_whole_url_witness :
  exists response w',
    handleEvent Demo.mapRequestToAsset Demo.kvAssetHandler false
                (Demo.GET "https://example.com/?next=/js/x") (start Demo.site)
    = (Ok response, w') /\
    headers response =
    [ ("content-type", "text/html");
      ("cache-control", immutable);
      ("x-frame-options", "DENY");
      ("x-content-type-options", "nosniff");
      ("x-xss-protection", "1; mode=block");
      ("referrer-policy", "no-referrer") ].
Proof.
  destruct (cache_control_tests_whole_url
              Demo.KV Demo.mapRequestToAsset Demo.kvAssetHandler false) as [H _].
  destruct (H (Demo.GET "https://example.com/?next=/js/x") (start Demo.site)
              {| status := 200;
                 headers := [("content-type", "text/html")];
                 body := Some "<h1>home</h1>" |}
              Demo.site eq_refl)
    as (response & w' & E & Hs).
  exists response, w'. split; [exact E|]. rewrite Hs. reflexivity.
Defined.

Lemma debug_is_off_witness :
  (exists later,
      fetches (snd (handleEvent Demo.mapRequestToAsset Demo.kvAssetHandler false
                                (Demo.GET "https://example.com/missing.png")
                                (start Demo.site)))
      = (Demo.GET "https://example.com/missing.png",
         Options.mk (assetMapper Demo.mapRequestToAsset) None) :: later /\
      later = [(Demo.GET "https://example.com/missing.png", notFoundOptions)]) /\
  (exists p,
      responses (snd (fetchListener Demo.mapRequestToAsset Demo.kvAssetHandler false
                                    Demo.InvalidStateError
                                    (Demo.GET "https://example.com/missing.png")
                                    {| kv := Demo.site; fetches := [];
                                       respondWithEntered := true; responses := [] |}))
      = [p; Ok (errorResponse "Internal Error")]).
Proof.
  split.
  - destruct (debug_is_off Demo.KV Demo.mapRequestToAsset Demo.kvAssetHandler false
                           Demo.InvalidStateError
                           (Demo.GET "https://example.com/missing.png") (start Demo.site))
      as (_ & (later & F & _ & L) & _).
    exists later. split; [exact F|].
    apply (L (Demo.NotFoundError "/missing.png") Demo.site). reflexivity.
  - destruct (debug_is_off Demo.KV Demo.mapRequestToAsset Demo.kvAssetHandler false
                           Demo.InvalidStateError
                           (Demo.GET "https://example.com/missing.png")
                           {| kv := Demo.site; fetches := [];
                              respondWithEntered := true; responses := [] |})
      as (_ & _ & R).
    apply R. reflexivity.
Defined.

(** * Further properties of the handler *)

(** ** [addCustomHeaders] *)

Lemma values_of_other_name (name : string) (added : Headers.t) :
  ~ In (Str.toLowerCase name) (map fst added) -> Headers.values name added = [].
Proof.
  unfold Headers.values. induction added as [|[k v] added IH]; simpl; intros N.
  - reflexivity.
  - destruct (String.eqb_spec k (Str.toLowerCase name)) as [E|_].
    + exfalso. apply N. now left.
    + apply IH. intros I. apply N. now right.
Qed.

(** X1.  [addCustomHeaders] only appends: the status and the body are
    the response's, the header list is the response's followed by five
    entries, one per header it writes, and every other header reads as
    before. *)
Theorem addCustomHeaders_only_appends (requestURL : URL.t) (response : Response) :
  status (addCustomHeaders requestURL response) = status response /\
  body (addCustomHeaders requestURL response) = body response /\
  (exists added,
      headers (addCustomHeaders requestURL response) = (headers response ++ added)%list /\
      map fst added = customHeaderNames) /\
  (forall name,
      ~ In (Str.toLowerCase name) customHeaderNames ->
      Headers.get name (headers (addCustomHeaders requestURL response)) =
      Headers.get name (headers response)).
Proof.
  split; [reflexivity|]. split; [reflexivity|].
  rewrite addCustomHeaders_headers. split.
  - eexists. split; reflexivity.
  - intros name N. unfold Headers.get.
    rewrite values_app.
    match goal with
    | |- context [Headers.values name (?e :: ?l)] =>
        rewrite (values_of_other_name name (e :: l)) by exact N
    end.
    now rewrite app_nil_r.
Qed.

(** X2.  The headers are appended, not set: each of the five headers
    reads, after [addCustomHeaders], as the values the response had for
    it followed by the new one, joined by a comma and a space. *)
Theorem addCustomHeaders_joins_values (requestURL : URL.t) (response : Response) :
  Forall (fun nv =>
            Headers.get (fst nv) (headers (addCustomHeaders requestURL response)) =
            Some (String.concat ", "
                    (Headers.values (fst nv) (headers response) ++ [snd nv])))
         (("Cache-Control", cacheControlFor requestURL) :: securityHeaders).
Proof.
  eapply Forall_impl; [|apply addCustomHeaders_values].
  intros [name value] E. cbn [fst snd] in *. unfold Headers.get. rewrite E.
  destruct (Headers.values name (headers response) ++ [value])%list eqn:A;
    [|reflexivity].
  now apply app_eq_nil in A.
Qed.

Lemma cacheControlFor_immutable (s : string) :
  cacheControlFor (URL.parse s) = immutable <-> RegExp.test regex s = true.
Proof.
  unfold cacheControlFor, URL.toString. rewrite href_parse.
  destruct (RegExp.test regex s); split; intros H; try reflexivity; discriminate.
Qed.

Lemma addCustomHeaders_cache_control (requestURL : URL.t) (response : Response) :
  carries (headers (addCustomHeaders requestURL response))
          "Cache-Control" (cacheControlFor requestURL).
Proof.
  pose proof (addCustomHeaders_values requestURL response) as V.
  inversion V as [|? ? C _]; subst.
  now apply (appended_value _ _ _ _ C).
Qed.

(** X3.  The immutable classification survives any extension of the
    URL: if the pattern accepts a URL, it accepts every URL that
    contains it as a substring (a longer prefix, an added query or
    fragment), and a response served for the longer URL carries the
    immutable value. *)
Theorem immutable_survives_extension (before s after : string) :
  cacheControlFor (URL.parse s) = immutable ->
  cacheControlFor (URL.parse (before ++ s ++ after)) = immutable /\
  (forall response,
      carries (headers (addCustomHeaders (URL.parse (before ++ s ++ after)) response))
              "Cache-Control" immutable).
Proof.
  intros H.
  assert (E : cacheControlFor (URL.parse (before ++ s ++ after)) = immutable).
  { apply cacheControlFor_immutable in H. apply cacheControlFor_immutable.
    apply RegExpFacts.test_spec in H. destruct H as (a & p & q & -> & H).
    apply RegExpFacts.test_spec.
    exists (before ++ a), p, (q ++ after). split; [now norm_append | exact H]. }
  split; [exact E|]. intros response. rewrite <- E.
  apply addCustomHeaders_cache_control.
Qed.


(** ** The mappers *)

Lemma endsWith_append (pre suffix : string) :
  Str.endsWith (pre ++ suffix) suffix = true.
Proof. apply endsWith_spec. now exists pre. Qed.

Section Extras.

Variable KV : Type.
Variable mapRequestToAsset : Request -> Request.
Variable kvAssetHandler : FetchEvent -> Options.t -> KV -> result Response * KV.
Variable ownFields : bool.
Variable InvalidStateError : JsError.

(** X5.  The mapper of the primary lookup changes nothing but the URL
    of index requests: its result ends in [/index.html] exactly when the
    default mapper's does, and has the method and the headers of the
    default mapper's result. *)
Theorem asset_mapper_keeps_index_requests (req : Request) :
  Str.endsWith (url (assetMapper mapRequestToAsset req)) "/index.html" =
  Str.endsWith (url (mapRequestToAsset req)) "/index.html" /\
  method (assetMapper mapRequestToAsset req) = method (mapRequestToAsset req) /\
  requestHeaders (assetMapper mapRequestToAsset req) =
  requestHeaders (mapRequestToAsset req).
Proof.
  unfold assetMapper.
  destruct (Str.endsWith (url (mapRequestToAsset req)) "/index.html") eqn:E.
  - cbn [url method requestHeaders new_Request]. rewrite endsWith_append. auto.
  - rewrite E. auto.
Qed.

(** X6.  All index requests of an origin collapse to one asset: two
    requests that the default mapper sends to URLs ending in
    [/index.html] on the same origin are looked up under the same URL,
    whatever their paths. *)
Theorem index_requests_collapse (req1 req2 : Request) :
  Str.endsWith (url (mapRequestToAsset req1)) "/index.html" = true ->
  Str.endsWith (url (mapRequestToAsset req2)) "/index.html" = true ->
  URL.origin (URL.parse (url (mapRequestToAsset req1))) =
  URL.origin (URL.parse (url (mapRequestToAsset req2))) ->
  url (assetMapper mapRequestToAsset req1) = url (assetMapper mapRequestToAsset req2).
Proof.
  intros E1 E2 O. unfold assetMapper. rewrite E1, E2.
  cbn [url new_Request]. now rewrite O.
Qed.

(** ** [handleEvent] *)

(** X7.  No lookup is retried.  With debug disabled, a run of
    [handleEvent] whose primary lookup succeeds makes that one lookup
    and leaves the store as the lookup left it; a run whose primary
    lookup throws makes one more, for the not-found page, on the store
    as the first lookup left it.  Both are made for the event itself. *)
Theorem lookups_of_a_run (event : FetchEvent) (w : World KV) :
  let w' := snd (handleEvent mapRequestToAsset kvAssetHandler ownFields event w) in
  let first := kvAssetHandler event (primaryOptions mapRequestToAsset DEBUG) (kv w) in
  match fst first with
  | Ok _ =>
      fetches w' = (fetches w ++ [(event, primaryOptions mapRequestToAsset DEBUG)])%list /\
      kv w' = snd first
  | Throw _ =>
      fetches w' =
      (fetches w ++ [(event, primaryOptions mapRequestToAsset DEBUG);
                     (event, notFoundOptions)])%list /\
      kv w' = snd (kvAssetHandler event notFoundOptions (snd first))
  end.
Proof.
  unfold handleEvent, DEBUG. rewrite handleEventWith_run.
  destruct (kvAssetHandler event (primaryOptions mapRequestToAsset false) (kv w))
    as [[r|e] k1]; cbn [fst snd]; [now split|].
  destruct (kvAssetHandler event notFoundOptions k1) as [[nf|e2] k2]; now split.
Qed.

(** X8.  The error paths add no header.  When the primary lookup
    throws, the response is either the 500 response, whose only header
    is [content-type: text/plain;charset=UTF-8], or the 404 response,
    whose headers are those of the store's not-found response or none:
    [handleEvent] writes neither [Cache-Control] nor a security header
    on them. *)
Theorem error_paths_add_no_header
        (event : FetchEvent) (w : World KV) (e : JsError) (k1 : KV) :
  kvAssetHandler event (primaryOptions mapRequestToAsset DEBUG) (kv w) = (Throw e, k1) ->
  exists response w',
    handleEvent mapRequestToAsset kvAssetHandler ownFields event w = (Ok response, w') /\
    ((status response = 500%Z /\
      headers response = [("content-type", "text/plain;charset=UTF-8")]) \/
     (exists notFoundResponse k2,
         kvAssetHandler event notFoundOptions k1 = (Ok notFoundResponse, k2) /\
         status response = 404%Z /\
         headers response = if ownFields then headers notFoundResponse else [])).
Proof.
  intros P. unfold handleEvent, DEBUG in *. rewrite handleEventWith_run, P.
  destruct (kvAssetHandler event notFoundOptions k1) as [[nf|e2] k2] eqn:N.
  - eexists. eexists. split; [reflexivity|]. right.
    exists nf, k2. split; [reflexivity|]. split; [reflexivity|].
    unfold notFoundPage, spread_with_status, new_Response. cbn.
    now destruct ownFields.
  - eexists. eexists. split; [reflexivity|]. left. now split.
Qed.

(** X9.  With the debug flag on, [handleEvent] makes one lookup, with
    [cacheControl = { bypassCache: true }] and the handler's mapper, and
    never looks the not-found page up: a served asset is decorated as in
    production, and a failed lookup gives the 500 response with the
    error's message. *)
Theorem debug_run (event : FetchEvent) (w : World KV) :
  let run := handleEventWith mapRequestToAsset kvAssetHandler ownFields true event w in
  let options := Options.mk (assetMapper mapRequestToAsset)
                            (Some {| bypassCache := true |}) in
  fetches (snd run) = (fetches w ++ [(event, options)])%list /\
  kv (snd run) = snd (kvAssetHandler event options (kv w)) /\
  fst run =
  match fst (kvAssetHandler event options (kv w)) with
  | Ok response => Ok (addCustomHeaders (URL.parse (url (request event))) response)
  | Throw e => Ok (errorResponse (message_or_toString e))
  end.
Proof.
  cbv zeta. rewrite handleEventWith_run. cbn [primaryOptions].
  destruct (kvAssetHandler event _ (kv w)) as [[r|e] k1]; repeat split.
Qed.

(** ** The listener *)

(** X10.  The listener always hands [respondWith] the response
    [handleEvent] returned, as a promise that resolves, and sets the
    event's flag.  It returns normally when the event had not been
    responded to, after that one call; otherwise [respondWith] throws,
    the [catch] block calls it once more, and that exception leaves the
    listener.  The store is asked exactly what [handleEvent] asks. *)
Theorem listener_outcome (debug : bool) (event : FetchEvent) (w : World KV) :
  let handled := handleEventWith mapRequestToAsset kvAssetHandler ownFields debug event w in
  let listened := fetchListenerWith mapRequestToAsset kvAssetHandler ownFields
                                    InvalidStateError debug event w in
  exists response,
    fst handled = Ok response /\
    fst listened = (if respondWithEntered w then Throw InvalidStateError else Ok tt) /\
    responses (snd listened) =
    (responses w ++
     Ok response ::
     (if respondWithEntered w
      then [Ok (errorResponse (if debug then message_or_toString InvalidStateError
                               else "Internal Error"))]
      else []))%list /\
    respondWithEntered (snd listened) = true /\
    kv (snd listened) = kv (snd handled) /\
    fetches (snd listened) = fetches (snd handled).
Proof.
  cbv zeta. rewrite fetchListenerWith_run.
  destruct (handleEventWith_returns KV mapRequestToAsset kvAssetHandler ownFields
                                    debug event w) as (response & w1 & ->).
  exists response. cbn [fst snd].
  destruct (respondWithEntered w); repeat split.
Qed.

End Extras.

(** X11.  The caching value follows the URL of the request, not the
    asset that is served.  A request whose URL the pattern accepts and
    which the default mapper sends to a URL ending in [/index.html] is
    looked up as the root [/index.html] of the origin, and the response
    served for it carries the immutable value. *)
Theorem index_page_served_as_immutable
        (KV : Type) (mapRequestToAsset : Request -> Request)
        (kvAssetHandler : FetchEvent -> Options.t -> KV -> result Response * KV)
        (ownFields : bool)
        (event : FetchEvent) (w : World KV) (r : Response) (k1 : KV) :
  RegExp.test regex (url (request event)) = true ->
  Str.endsWith (url (mapRequestToAsset (request event))) "/index.html" = true ->
  kvAssetHandler event (primaryOptions mapRequestToAsset DEBUG) (kv w) = (Ok r, k1) ->
  url (Options.mapRequestToAsset (primaryOptions mapRequestToAsset DEBUG) (request event)) =
  URL.origin (URL.parse (url (mapRequestToAsset (request event)))) ++ "/index.html" /\
  exists response w',
    handleEvent mapRequestToAsset kvAssetHandler ownFields event w = (Ok response, w') /\
    status response = status r /\
    body response = body r /\
    carries (headers response) "Cache-Control" immutable.
Proof.
  intros T E P. split.
  - cbn [DEBUG primaryOptions Options.mapRequestToAsset]. unfold assetMapper.
    now rewrite E.
  - unfold handleEvent. rewrite handleEventWith_run, P.
    eexists. eexists. split; [reflexivity|].
    split; [reflexivity|]. split; [reflexivity|].
    apply cacheControlFor_immutable in T. rewrite <- T.
    apply addCustomHeaders_cache_control.
Qed.

(** ** The further properties on the small store *)

Lemma addCustomHeaders_only_appends_witness :
  Headers.get "Content-Type"
    (headers (addCustomHeaders (URL.parse "https://example.com/js/app.3f2a.js")
                {| status := 200;
                   headers := [("content-type", "application/javascript")];
                   body := Some "console.log(1)" |}))
  = Some "application/javascript".
Proof.
  destruct (addCustomHeaders_only_appends
              (URL.parse "https://example.com/js/app.3f2a.js")
              {| status := 200;
                 headers := [("content-type", "application/javascript")];
                 body := Some "console.log(1)" |}) as (_ & _ & _ & Other).
  rewrite Other; [reflexivity|].
  cbn. intros [H|[H|[H|[H|[H|[]]]]]]; discriminate.
Defined.

Lemma immutable_survives_extension_witness :
  cacheControlFor (URL.parse "https://example.com/js/app.3f2a.js?v=2#top") = immutable.
Proof.
  apply (proj1 (immutable_survives_extension
                  "" "https://example.com/js/app.3f2a.js" "?v=2#top" eq_refl)).
Defined.


Lemma index_requests_collapse_witness :
  url (assetMapper Demo.mapRequestToAsset
         (request (Demo.GET "https://example.com/docs/")))
  = url (assetMapper Demo.mapRequestToAsset
           (request (Demo.GET "https://example.com/blog/2024/post"))).
Proof.
  apply (index_requests_collapse Demo.mapRequestToAsset
           (request (Demo.GET "https://example.com/docs/"))
           (request (Demo.GET "https://example.com/blog/2024/post")));
    reflexivity.
Defined.

Lemma error_paths_add_no_header_witness :
  exists response w',
    handleEvent Demo.mapRequestToAsset Demo.kvAssetHandler true
                (Demo.GET "https://example.com/missing.png") (start Demo.site)
    = (Ok response, w') /\
    ((status response = 500%Z /\
      headers response = [("content-type", "text/plain;charset=UTF-8")]) \/
     (exists notFoundResponse k2,
         Demo.kvAssetHandler (Demo.GET "https://example.com/missing.png")
                             notFoundOptions Demo.site
         = (Ok notFoundResponse, k2) /\
         status response = 404%Z /\
         headers response = headers notFoundResponse)).
Proof.
  apply (error_paths_add_no_header
           Demo.KV Demo.mapRequestToAsset Demo.kvAssetHandler true
           (Demo.GET "https://example.com/missing.png") (start Demo.site)
           (Demo.NotFoundError "/missing.png") Demo.site).
  reflexivity.
Defined.

Lemma index_page_served_as_immutable_witness :
  url (Options.mapRequestToAsset (primaryOptions Demo.mapRequestToAsset DEBUG)
         (request (Demo.GET "https://example.com/js/app/")))
  = "https://example.com/index.html" /\
  exists response w',
    handleEvent Demo.mapRequestToAsset Demo.kvAssetHandler false
                (Demo.GET "https://example.com/js/app/") (start Demo.site)
    = (Ok response, w') /\
    status response = 200%Z /\
    body response = Some "<h1>home</h1>" /\
    carries (headers response) "Cache-Control" immutable.
Proof.
  apply (index_page_served_as_immutable
           Demo.KV Demo.mapRequestToAsset Demo.kvAssetHandler false
           (Demo.GET "https://example.com/js/app/") (start Demo.site)
           {| status := 200;
              headers := [("content-type", "text/html")];
              body := Some "<h1>home</h1>" |}
           Demo.site);
    reflexivity.
Defined.
